(** * Tezos tax scanner: lot matching and gain computation

    A shallow embedding of [scripts/tezos_tax_scan_2025.py]: the event
    normaliser [build_events], the pagination loop [tzkt_paginated], the
    price oracle, the IRS FIFO lot engine [classify_irs] and the HMRC
    matching engine [hmrc_pooling_disposals], followed by the properties
    established about them.

    Modelling conventions.
    - Numbers.  The matching code is embedded twice.  In [Irs] and
      [Hmrc] Python floats are idealised as exact rationals ([Q]);
      comparisons are the boolean tests of the source, written with
      [Qle_bool], and equalities between computed amounts are stated
      with [==].  This embedding carries the runs of the engines, the
      records, and the identities that hold of the amounts before
      rounding.  In [Irs64] and [Hmrc64] the floats are IEEE 754
      binary64 numbers ([B64]) and every operation rounds as it does in
      the source.  This embedding carries the statements in which
      rounding decides: how the takes of a breakdown compare with the
      disposed quantity, and which matching step acts.
    - A timestamp is the number of seconds since the epoch, UTC.  The
      indexer emits uniformly formatted UTC strings, so the order and
      equality of the ISO strings are those of the instants; [iso_to_dt]
      is then the identity and a calendar day is the instant divided by
      86400.
    - [json.dumps] of a breakdown is modelled by the list it serialises. *)

From Stdlib Require Import ZArith QArith Qminmax Qround Qabs Qpower Lqa Lia.
From Stdlib Require Import List String Ascii Bool Sorted Permutation SpecFloat.
From stdpp Require Import gmap.
Import ListNotations.
Local Open Scope Z_scope.
Local Open Scope Q_scope.

(** ** Numeric helpers *)

(** The tolerance [1e-12] used by every exhaustion test. *)
Definition eps : Q := 1 # 1000000000000.

(** [x < y] as a boolean, for the guards [a > b] of the source. *)
Definition Qlt_bool (x y : Q) : bool := negb (Qle_bool y x).

(** [clamp]: non-finite floats become [0.0]; every rational is finite
    ([B64.clamp] below is the function on floats). *)
Definition clamp (n : Q) : Q := n.

(** [round(x, 8)], on the exact value of [x]: the nearest multiple of
    [1e-8], ties to the even one.  (Python returns the float nearest to
    that multiple.) *)
Definition round8 (x : Q) : Q :=
  let scaled := x * (100000000 # 1) in
  let lo := Qfloor scaled in
  let n := match Qcompare (scaled - inject_Z lo) (1 # 2) with
           | Lt => lo
           | Gt => (lo + 1)%Z
           | Eq => if Z.even lo then lo else (lo + 1)%Z
           end in
  Qred (n # 100000000).

(** [sum(...)] of Python: a left fold starting at [0]. *)
Definition py_sum (l : list Q) : Q := fold_left Qplus l 0.

(** ** Time *)

Definition iso_to_dt (s : Z) : Z := s.

(** [dt.strftime("%Y-%m-%d")]: the calendar day of an instant. *)
Definition day_of (dt : Z) : Z := (dt / 86400)%Z.

(** [(a - b).days]: whole days of a timedelta, rounded towards minus
    infinity as [timedelta] normalises. *)
Definition timedelta_days (a b : Z) : Z := ((a - b) / 86400)%Z.

(** ** Stable sort

    [list.sort(key=...)] is stable; insertion sort with the new element
    placed before the first element whose key is not smaller is a stable
    sort as well, and a list has only one stable sort. *)

Section StableSort.
Context {A : Type} (key : A -> Z).

Fixpoint insert_by (x : A) (l : list A) : list A :=
  match l with
  | [] => [x]
  | y :: r => if (key x <=? key y)%Z then x :: y :: r
              else y :: insert_by x r
  end.

Fixpoint sort_by (l : list A) : list A :=
  match l with
  | [] => []
  | x :: r => insert_by x (sort_by r)
  end.
End StableSort.

(** ** While loops

    [while guard: body], run with a bound on the number of iterations;
    [None] when the bound is reached with the guard still true. *)

Fixpoint while_fuel {S : Type} (guard : S -> bool) (body : S -> S)
    (fuel : nat) (s : S) : option S :=
  if guard s then
    match fuel with
    | O => None
    | Datatypes.S n => while_fuel guard body n (body s)
    end
  else Some s.

(** ** Data model *)

Inductive Direction := DirIn | DirOut.
Inductive Kind := XtzTransfer | TokenTransfer.

Definition is_in (d : Direction) : bool :=
  match d with DirIn => true | DirOut => false end.
Definition is_out (d : Direction) : bool :=
  match d with DirIn => false | DirOut => true end.

Record Event := {
  timestamp : Z;
  level : Z;
  op_hash : string;
  kind : Kind;
  direction : Direction;
  counterparty : string;
  asset : string;
  quantity : Q;
  fee_xtz : Q;
  note : string;
  tags : string;
  confidence : string
}.

Definition is_xtz (e : Event) : bool := (asset e =? "XTZ")%string.

(** ** Pricing *)

(** What the history endpoint answers for a day: the request itself may
    fail, and a document that arrives may or may not hold a number at
    [market_data.current_price[vs]]. *)
Inductive HttpAnswer :=
| HttpFailure
| HttpJson (current_price : option Q).

Record PriceOracle := {
  vs : string;
  cache : gmap Z Q
}.

(** [PriceOracle.xtz_price_on_date]; [None] is the exception raised by
    [http_get_json], which nothing catches. *)
Definition xtz_price_on_date (http : Z -> HttpAnswer) (o : PriceOracle)
    (date : Z) : option (Q * PriceOracle) :=
  match cache o !! date with
  | Some p => Some (p, o)
  | None =>
      match http date with
      | HttpFailure => None
      | HttpJson field =>
          let price := match field with Some p => p | None => 0 end in
          Some (price, {| vs := vs o; cache := <[date := price]> (cache o) |})
      end
  end.

Definition oracle_xtz_fmv (http : Z -> HttpAnswer) (o : PriceOracle)
    (dt : Z) : option (Q * PriceOracle) :=
  xtz_price_on_date http o (day_of dt).

(** ** IRS: FIFO lots

    The engine on exact rationals; [Irs64] below is its disposal loop on
    floats. *)

Module Irs.

Record Lot := {
  acquired_ts : Z;
  qty : Q;
  basis_per : Q
}.

Record LotDetail := {
  from_lot_acquired_ts : Z;
  take_qty : Q;
  basis_per_usd : Q
}.

Record Disposal := {
  d_timestamp : Z;
  d_asset : string;
  qty_disposed : Q;
  fmv_usd_per_xtz_used : Q;
  proceeds_usd_est : Q;
  basis_usd_fifo_est : Q;
  gain_usd_est : Q;
  d_fee_xtz : Q;
  d_op_hash : string;
  lot_breakdown_json : list LotDetail;
  d_note : string
}.

Record LedgerRow := {
  row_event : Event;
  irs_category : string;
  irs_taxable : string;
  xtz_fmv_usd_daily : option Q
}.

(** The variables of the disposal loop. *)
Record Loop := {
  qty_to_dispose : Q;
  lots : list Lot;
  basis : Q;
  lot_details : list LotDetail
}.

Definition loop_guard (s : Loop) : bool :=
  Qlt_bool eps (qty_to_dispose s)
  && match lots s with [] => false | _ :: _ => true end.

Definition loop_body (s : Loop) : Loop :=
  match lots s with
  | [] => s
  | lot :: rest =>
      let take := Qmin (qty_to_dispose s) (qty lot) in
      let lot' := {| acquired_ts := acquired_ts lot;
                     qty := qty lot - take;
                     basis_per := basis_per lot |} in
      {| qty_to_dispose := qty_to_dispose s - take;
         lots := if Qle_bool (qty lot') eps then rest else lot' :: rest;
         basis := basis s + take * basis_per lot;
         lot_details := lot_details s ++
           [{| from_lot_acquired_ts := acquired_ts lot;
               take_qty := take;
               basis_per_usd := basis_per lot |}] |}
  end.

Definition loop_start (q : Q) (xtz_lots : list Lot) : Loop :=
  {| qty_to_dispose := q; lots := xtz_lots; basis := 0; lot_details := [] |}.

(** The loop run from [loop_start]: one iteration more than there are
    lots always suffices (see [fifo_loop_terminates]). *)
Definition fifo_loop (q : Q) (xtz_lots : list Lot) : option Loop :=
  while_fuel loop_guard loop_body (S (length xtz_lots)) (loop_start q xtz_lots).

Definition fifo_consume (q : Q) (xtz_lots : list Lot) : Loop :=
  match fifo_loop q xtz_lots with
  | Some s => s
  | None => loop_start q xtz_lots
  end.

Record State := {
  ledger : list LedgerRow;
  disposals : list Disposal;
  xtz_lots : list Lot
}.

Definition fifo_note : string :=
  "FIFO used if you did not specifically identify units (IRS FAQ).".

Section Engine.
(** The daily price the oracle serves during the run. *)
Variable usd_price_on_date : Z -> Q.

Definition xtz_fmv (dt : Z) : Q := usd_price_on_date (day_of dt).

(** The disposal branch of [classify_irs]: the proceeds, the FIFO loop
    over the open lots, and the record; returned with the lots left. *)
Definition dispose (e : Event) (fmv_usd : Q) (open : list Lot)
    : Disposal * list Lot :=
  let proceeds := quantity e * fmv_usd in
  let r := fifo_consume (quantity e) open in
  let g := proceeds - basis r in
  ({| d_timestamp := timestamp e;
      d_asset := asset e;
      qty_disposed := quantity e;
      fmv_usd_per_xtz_used := round8 fmv_usd;
      proceeds_usd_est := round8 proceeds;
      basis_usd_fifo_est := round8 (basis r);
      gain_usd_est := round8 g;
      d_fee_xtz := fee_xtz e;
      d_op_hash := op_hash e;
      lot_breakdown_json := lot_details r;
      d_note := fifo_note |}, lots r).

(** One iteration of the loop of [classify_irs] over [events]. *)
Definition step (s : State) (e : Event) : State :=
  let dt := iso_to_dt (timestamp e) in
  let fmv_usd := if is_xtz e then xtz_fmv dt else 0 in
  let row cat tax :=
    {| row_event := e; irs_category := cat; irs_taxable := tax;
       xtz_fmv_usd_daily := if is_xtz e then Some (round8 fmv_usd) else None |} in
  if is_xtz e then
    if is_in (direction e) && Qlt_bool 0 (quantity e) then
      {| ledger := ledger s ++ [row "acquisition_or_income_review" "maybe"]%string;
         disposals := disposals s;
         xtz_lots := xtz_lots s ++
           [{| acquired_ts := timestamp e; qty := quantity e;
               basis_per := fmv_usd |}] |}
    else if is_out (direction e) && Qlt_bool 0 (quantity e) then
      let '(d, open) := dispose e fmv_usd (xtz_lots s) in
      {| ledger := ledger s ++ [row "disposal_capital" "yes"]%string;
         disposals := disposals s ++ [d];
         xtz_lots := open |}
    else
      {| ledger := ledger s ++ [row "review" "unknown"]%string;
         disposals := disposals s;
         xtz_lots := xtz_lots s |}
  else
    {| ledger := ledger s ++
         [if is_out (direction e)
          then row "token_disposal_review" "likely"
          else row "token_acquisition_or_income_review" "maybe"]%string;
       disposals := disposals s;
       xtz_lots := xtz_lots s |}.

Definition start : State :=
  {| ledger := []; disposals := []; xtz_lots := [] |}.

(** The state when the loop over [events] ends; [xtz_lots] is the queue
    of open lots at that point. *)
Definition run (events : list Event) : State := fold_left step events start.

Definition classify_irs (events : list Event)
    : list LedgerRow * list Disposal :=
  (ledger (run events), disposals (run events)).
End Engine.

End Irs.

(** ** HMRC: same-day, 30-day, Section 104 pool

    The engine on exact rationals; [Hmrc64] below is its matching on
    floats. *)

Module Hmrc.

(** An acquisition record of a day bucket. *)
Record Acq := {
  ts : Z;
  dt : Z;
  qty : Q;
  cost_per : Q
}.

(** An entry of [future_acqs]: the tuple [(dt, qty, cost_per, ts)]. *)
Definition FutureAcq : Type := Z * Q * Q * Z.

(** An entry of the matching breakdown.  [FromAcq] is the dictionary
    with keys [from_acq_ts], [take_qty], [cost_per_gbp]; [FromAcq30]
    has the key [rule] = "30-day" in addition; [FromPool] has the keys
    [take_qty], [avg_cost_per_gbp] and [rule] = "S104". *)
Inductive Match :=
| FromAcq (from_acq_ts : Z) (take_qty cost_per_gbp : Q)
| FromAcq30 (from_acq_ts : Z) (take_qty cost_per_gbp : Q)
| FromPool (take_qty avg_cost_per_gbp : Q).

Definition take_qty (u : Match) : Q :=
  match u with
  | FromAcq _ t _ | FromAcq30 _ t _ | FromPool t _ => t
  end.

Record Disposal := {
  d_timestamp : Z;
  d_asset : string;
  qty_disposed : Q;
  fmv_gbp_per_xtz_used : Q;
  proceeds_gbp_est : Q;
  allowable_cost_gbp_est : Q;
  gain_gbp_est : Q;
  d_op_hash : string;
  matching_breakdown_json : list Match;
  d_note : string
}.

Definition hmrc_note : string :=
  "Best-effort same-day, 30-day, then Section 104 style matching (HMRC Cryptoassets Manual).".

(** The [while] of [consume_from_list], from index [i] on: [lst] is the
    part of the list at and after [i].  Returns the records as mutated,
    the cost and the entries used. *)
Fixpoint consume_loop (lst : list Acq) (qty_needed cost : Q)
    (used : list Match) : list Acq * Q * list Match :=
  match lst with
  | [] => ([], cost, used)
  | rec :: rest =>
      if Qlt_bool eps qty_needed then
        let take := Qmin qty_needed (qty rec) in
        let cost' := cost + take * cost_per rec in
        let used' := used ++ [FromAcq (ts rec) take (cost_per rec)] in
        let rec' := {| ts := ts rec; dt := dt rec; qty := qty rec - take;
                       cost_per := cost_per rec |} in
        if Qle_bool (qty rec') eps then
          let '(rest', c, u) := consume_loop rest (qty_needed - take) cost' used' in
          (rec' :: rest', c, u)
        else (rec' :: rest, cost', used')
      else (lst, cost, used)
  end.

(** [consume_from_list]: the cost, the entries used, and the list as the
    call leaves it (the source mutates it in place). *)
Definition consume_from_list (lst : list Acq) (qty_needed : Q)
    : Q * list Match * list Acq :=
  let '(lst', cost, used) := consume_loop lst qty_needed 0 [] in
  (cost, used, List.filter (fun r => Qlt_bool eps (qty r)) lst').

(** The filter of the 30-day step: [adt > dt and (adt - dt).days <= 30
    and aqty > 1e-12]. *)
Definition eligible (dt : Z) (a : FutureAcq) : bool :=
  let '(adt, aqty, _, _) := a in
  (dt <? adt)%Z && (timedelta_days adt dt <=? 30)%Z && Qlt_bool eps aqty.

(** The write back: the first entry of [future_acqs] whose timestamp is
    [ts] loses [take]. *)
Fixpoint write_back (future_acqs : list FutureAcq) (ts : Z) (take : Q)
    : list FutureAcq :=
  match future_acqs with
  | [] => []
  | (adt, aqty, cper, ts2) :: rest =>
      if (ts2 =? ts)%Z then (adt, aqty - take, cper, ts2) :: rest
      else (adt, aqty, cper, ts2) :: write_back rest ts take
  end.

(** [for rec in thirty: ...]. *)
Fixpoint thirty_loop (thirty : list FutureAcq) (qty_left cost_total : Q)
    (match_used : list Match) (future_acqs : list FutureAcq)
    : Q * Q * list Match * list FutureAcq :=
  match thirty with
  | [] => (qty_left, cost_total, match_used, future_acqs)
  | (_, aqty, cost_per, ts) :: rest =>
      if Qle_bool qty_left eps then
        (qty_left, cost_total, match_used, future_acqs)
      else
        let take := Qmin qty_left aqty in
        thirty_loop rest (qty_left - take) (cost_total + take * cost_per)
          (match_used ++ [FromAcq30 ts take cost_per])
          (write_back future_acqs ts take)
  end.

Definition thirty_of (dt : Z) (future_acqs : list FutureAcq) : list FutureAcq :=
  sort_by (fun x : FutureAcq => let '(adt, _, _, _) := x in adt)
          (List.filter (eligible dt) future_acqs).

(** Step 2 of a disposal. *)
Definition thirty_day_match (dt : Z) (qty_left cost_total : Q)
    (match_used : list Match) (future_acqs : list FutureAcq)
    : Q * Q * list Match * list FutureAcq :=
  if Qlt_bool eps qty_left then
    thirty_loop (thirty_of dt future_acqs) qty_left cost_total match_used
      future_acqs
  else (qty_left, cost_total, match_used, future_acqs).

(** Step 3 of a disposal: [cost_total], [pool_used] and the pool
    afterwards. *)
Definition pool_match (qty_left cost_total pool_qty pool_cost_gbp : Q)
    : Q * list Match * Q * Q :=
  if Qlt_bool eps qty_left then
    if Qle_bool pool_qty eps then
      let pool_cost := 0 in
      (cost_total + pool_cost, [], pool_qty, pool_cost_gbp)
    else
      let avg_cost := pool_cost_gbp / pool_qty in
      let pool_cost := qty_left * avg_cost in
      (cost_total + pool_cost, [FromPool qty_left avg_cost],
       pool_qty - qty_left, pool_cost_gbp - pool_cost)
  else (cost_total, [], pool_qty, pool_cost_gbp).

Record State := {
  acq_by_day : gmap Z (list Acq);
  future_acqs : list FutureAcq;
  pool_qty : Q;
  pool_cost_gbp : Q;
  disposals : list Disposal
}.

(** Everything the three matching steps of one disposal compute. *)
Record Outcome := {
  o_acq_by_day : gmap Z (list Acq);
  o_future_acqs : list FutureAcq;
  o_match_used : list Match;
  o_qty_left : Q;
  o_pool_used : list Match;
  o_cost_total : Q;
  o_pool_qty : Q;
  o_pool_cost_gbp : Q
}.

Definition matching (s : State) (dt : Z) (qty : Q) : Outcome :=
  let day := day_of dt in
  let same_day_list := default [] (acq_by_day s !! day) in
  let '(same_day_cost, same_day_used, same_day_list') :=
    consume_from_list same_day_list qty in
  let buckets := match acq_by_day s !! day with
                 | Some _ => <[day := same_day_list']> (acq_by_day s)
                 | None => acq_by_day s
                 end in
  let qty_left := qty - py_sum (map take_qty same_day_used) in
  let '(qty_left, cost_total, match_used, future) :=
    thirty_day_match dt qty_left same_day_cost same_day_used (future_acqs s) in
  let '(cost_total, pool_used, pool_qty', pool_cost_gbp') :=
    pool_match qty_left cost_total (pool_qty s) (pool_cost_gbp s) in
  {| o_acq_by_day := buckets;
     o_future_acqs := future;
     o_match_used := match_used;
     o_qty_left := qty_left;
     o_pool_used := pool_used;
     o_cost_total := cost_total;
     o_pool_qty := pool_qty';
     o_pool_cost_gbp := pool_cost_gbp' |}.

Section Engine.
(** The daily price the oracle serves during the run. *)
Variable gbp_price_on_date : Z -> Q.

Definition xtz_fmv (dt : Z) : Q := gbp_price_on_date (day_of dt).

(** First pass: an acquisition joins its day bucket and [future_acqs]. *)
Definition record_acq (s : State) (e : Event) : State :=
  let dt := iso_to_dt (timestamp e) in
  let day := day_of dt in
  let fmv_gbp := xtz_fmv dt in
  if is_in (direction e) then
    {| acq_by_day :=
         <[day := default [] (acq_by_day s !! day) ++
                  [{| ts := timestamp e; dt := dt; qty := quantity e;
                      cost_per := fmv_gbp |}]]> (acq_by_day s);
       future_acqs := future_acqs s ++ [(dt, quantity e, fmv_gbp, timestamp e)];
       pool_qty := pool_qty s;
       pool_cost_gbp := pool_cost_gbp s;
       disposals := disposals s |}
  else s.

(** The record appended for a disposal [e] whose matching gave [o]. *)
Definition row (e : Event) (o : Outcome) : Disposal :=
  let fmv_gbp := xtz_fmv (iso_to_dt (timestamp e)) in
  let qty := quantity e in
  let proceeds := qty * fmv_gbp in
  let gain := proceeds - o_cost_total o in
  {| d_timestamp := timestamp e;
     d_asset := "XTZ";
     qty_disposed := qty;
     fmv_gbp_per_xtz_used := round8 fmv_gbp;
     proceeds_gbp_est := round8 proceeds;
     allowable_cost_gbp_est := round8 (o_cost_total o);
     gain_gbp_est := round8 gain;
     d_op_hash := op_hash e;
     matching_breakdown_json := o_match_used o ++ o_pool_used o;
     d_note := hmrc_note |}.

(** Second pass, one event. *)
Definition step (s : State) (e : Event) : State :=
  let dt := iso_to_dt (timestamp e) in
  let fmv_gbp := xtz_fmv dt in
  if is_in (direction e) then
    {| acq_by_day := acq_by_day s;
       future_acqs := future_acqs s;
       pool_qty := pool_qty s + quantity e;
       pool_cost_gbp := pool_cost_gbp s + quantity e * fmv_gbp;
       disposals := disposals s |}
  else
    let o := matching s dt (quantity e) in
    {| acq_by_day := o_acq_by_day o;
       future_acqs := o_future_acqs o;
       pool_qty := o_pool_qty o;
       pool_cost_gbp := o_pool_cost_gbp o;
       disposals := disposals s ++ [row e o] |}.

Definition start : State :=
  {| acq_by_day := ∅; future_acqs := []; pool_qty := 0;
     pool_cost_gbp := 0; disposals := [] |}.

Definition xtz_events_of (events : list Event) : list Event :=
  sort_by timestamp
    (List.filter (fun e => is_xtz e && Qlt_bool 0 (quantity e)) events).

(** The state when the second pass ends. *)
Definition run (events : list Event) : State :=
  let xtz_events := xtz_events_of events in
  fold_left step xtz_events (fold_left record_acq xtz_events start).

Definition hmrc_pooling_disposals (events : list Event) : list Disposal :=
  disposals (run events).
End Engine.

End Hmrc.

(** ** Event building *)

(** [str.lower] and [str.upper] on the ASCII letters. *)
Definition lower_ascii (c : ascii) : ascii :=
  let n := nat_of_ascii c in
  if ((65 <=? n) && (n <=? 90))%nat then ascii_of_nat (n + 32) else c.

Definition upper_ascii (c : ascii) : ascii :=
  let n := nat_of_ascii c in
  if ((97 <=? n) && (n <=? 122))%nat then ascii_of_nat (n - 32) else c.

Fixpoint map_string (f : ascii -> ascii) (s : string) : string :=
  match s with
  | EmptyString => EmptyString
  | String c r => String (f c) (map_string f r)
  end.

Definition lower : string -> string := map_string lower_ascii.
Definition upper : string -> string := map_string upper_ascii.

(** ["|".join(tags)]. *)
Fixpoint pipe_join (tags : list string) : string :=
  match tags with
  | [] => ""
  | [t] => t
  | t :: r => t ++ "|" ++ pipe_join r
  end%string.

(** A transaction of the indexer, with the fields [build_events] reads:
    [op_timestamp] is [None] when the key is missing or empty, the
    addresses are [""] when missing, [op_amount] and [op_fee] are what
    [safe_float] returns (in mutez), [op_parameter] tells whether the
    key [parameter] holds a true value. *)
Record XtzOp := {
  op_timestamp : option Z;
  op_sender : string;
  op_target : string;
  op_amount : Q;
  op_fee : Q;
  op_parameter : bool;
  op_level : Z;
  op_hash_field : string
}.

(** The key [decimals] of a token's metadata: missing or [None], a
    number, or a text with what [int] makes of it. *)
Inductive Decimals :=
| DecNone
| DecInt (d : Z)
| DecText (parsed : option Z).

(** A token transfer of the indexer, with the fields [build_events]
    reads, for a token whose [metadata] is an object or is missing
    ([build_events] raises on a token whose [metadata] is [null]: line
    275 calls [get] on it). *)
Record TokenTransferOp := {
  tr_timestamp : option Z;
  tr_from : string;
  tr_to : string;
  tr_contract : string;
  tr_token_id : option string;
  tr_standard : string;
  tr_symbol : option string;
  tr_name : option string;
  tr_decimals : Decimals;
  tr_amount : Q;
  tr_level : Z;
  tr_transaction_hash : string
}.

Definition truthy (s : option string) : bool :=
  match s with
  | Some (String _ _) => true
  | _ => false
  end.

(** One iteration of the loop over [xtz_ops]; [None] is [continue]. *)
Definition xtz_event (addr : string) (op : XtzOp) : option Event :=
  match op_timestamp op with
  | None => None
  | Some ts =>
      let sender := op_sender op in
      let target := op_target op in
      let amount_xtz := op_amount op / 1000000 in
      let fee_xtz := op_fee op / 1000000 in
      if Qeq_bool amount_xtz 0 && Qeq_bool fee_xtz 0 then None
      else
        let direction :=
          if (lower target =? addr)%string && negb (lower sender =? addr)%string
          then DirIn else DirOut in
        let counterparty := if is_in direction then sender else target in
        let note := if op_parameter op then "contract_call" else "transfer" in
        let tags :=
          ((if Qlt_bool 0 amount_xtz && is_in direction then ["receipt"] else [])
           ++ (if Qlt_bool 0 amount_xtz && is_out direction
               then ["payment_or_disposal"] else [])
           ++ (if (lower sender =? addr)%string && (lower target =? addr)%string
               then ["self_transfer"] else []))%list in
        let conf :=
          if (lower sender =? addr)%string && (lower target =? addr)%string
          then "high" else "medium" in
        Some {| timestamp := ts;
                level := op_level op;
                op_hash := op_hash_field op;
                kind := XtzTransfer;
                direction := direction;
                counterparty := counterparty;
                asset := "XTZ";
                quantity := clamp amount_xtz;
                fee_xtz := clamp fee_xtz;
                note := note;
                tags := pipe_join tags;
                confidence := conf |}
  end%string.

(** One iteration of the loop over [tok_ops]. *)
Definition token_event (addr : string) (tr : TokenTransferOp) : option Event :=
  match tr_timestamp tr with
  | None => None
  | Some ts =>
      let direction := if (lower (tr_to tr) =? addr)%string then DirIn else DirOut in
      let counterparty := if is_in direction then tr_from tr else tr_to tr in
      let raw_amount := tr_amount tr in
      let qty :=
        match tr_decimals tr with
        | DecNone => raw_amount
        | DecInt d | DecText (Some d) =>
            (* [10 ** d] does not fit a float from [d = 309] on, and is
               [0.0] from [d = -324] down: the division raises, and the
               raw amount is kept. *)
            if ((308 <? d) || (d <? -323))%Z then raw_amount
            else raw_amount / (10 ^ d)
        | DecText None => raw_amount
        end in
      let label :=
        if truthy (tr_symbol tr) then default "" (tr_symbol tr)
        else if truthy (tr_name tr) then default "" (tr_name tr)
        else "TOKEN" in
      let asset :=
        label ++ ":" ++ tr_contract tr ++ ":" ++ default "None" (tr_token_id tr)
        ++ ":" ++ tr_standard tr in
      let nft :=
        (upper (tr_standard tr) =? "FA2")%string
        && match tr_decimals tr with
           | DecNone => true
           | DecInt d => (d =? 0)%Z
           | DecText _ => false
           end
        && Qeq_bool raw_amount 1 in
      Some {| timestamp := ts;
              level := tr_level tr;
              op_hash := tr_transaction_hash tr;
              kind := TokenTransfer;
              direction := direction;
              counterparty := counterparty;
              asset := asset;
              quantity := clamp qty;
              fee_xtz := 0;
              note := "token_transfer";
              tags := pipe_join (["token_transfer"]
                                 ++ if nft then ["likely_nft"] else [])%list;
              confidence := if nft then "high" else "medium" |}
  end%string.

Definition build_events (address : string) (xtz_ops : list XtzOp)
    (tok_ops : list TokenTransferOp) : list Event :=
  let addr := lower address in
  sort_by timestamp
    (omap (xtz_event addr) xtz_ops ++ omap (token_event addr) tok_ops).

(** ** Pagination *)

(** What a page request answers: the request fails, the document is not
    a list, or it is a list of rows. *)
Inductive PageAnswer (A : Type) :=
| PageFailure
| PageOther
| PageList (data : list A).
Arguments PageFailure {A}.
Arguments PageOther {A}.
Arguments PageList {A} data.

(** How a run of [tzkt_paginated] ends: with the rows gathered, with the
    exception of a failed request, or still asking for pages when the
    bound on the number of requests is reached. *)
Inductive Paginated (A : Type) :=
| Rows (out : list A)
| RequestFailed
| StillPaging.
Arguments Rows {A} out.
Arguments RequestFailed {A}.
Arguments StillPaging {A}.

(** The loop of [tzkt_paginated], from the values [out] and [offset] of
    its variables; [http limit offset] is the answer to the page request
    with these parameters. *)
Fixpoint paginate_from {A : Type} (http : nat -> nat -> PageAnswer A)
    (limit : nat) (requests : nat) (out : list A) (offset : nat)
    : Paginated A :=
  match requests with
  | O => StillPaging
  | S requests' =>
      match http limit offset with
      | PageFailure => RequestFailed
      | PageOther => Rows out
      | PageList [] => Rows out
      | PageList data =>
          let out' := (out ++ data)%list in
          if (length data <? limit)%nat then Rows out'
          else paginate_from http limit requests' out' (offset + limit)
      end
  end.

Definition tzkt_paginated {A : Type} (http : nat -> nat -> PageAnswer A)
    (limit : nat) (requests : nat) : Paginated A :=
  paginate_from http limit requests [] 0.

(** An indexer that holds [rows] and serves them by slices. *)
Definition serve {A : Type} (rows : list A) (limit offset : nat)
    : PageAnswer A :=
  PageList (firstn limit (skipn offset rows)).

(** ** Binary64 arithmetic

    The floats of the source are IEEE 754 binary64 numbers.  They are the
    [spec_float] of the Standard Library at precision 53 and exponent
    bound 1024, with its operations, which round to nearest, ties to
    even: what [+], [-], [*] and [/] of Python compute.  (Python raises
    on a division by [0.0]; the engines divide by [1_000_000.0] and by
    a pool quantity above [1e-12] only.) *)

Module B64.

Definition prec : Z := 53.
Definition emax : Z := 1024.

Definition add : spec_float -> spec_float -> spec_float := SFadd prec emax.
Definition sub : spec_float -> spec_float -> spec_float := SFsub prec emax.
Definition mul : spec_float -> spec_float -> spec_float := SFmul prec emax.
Definition div : spec_float -> spec_float -> spec_float := SFdiv prec emax.

(** [x < y] and [x <= y]; both are false when an operand is not a
    number. *)
Definition ltb : spec_float -> spec_float -> bool := SFltb.
Definition leb : spec_float -> spec_float -> bool := SFleb.

(** [0.0], and the float of an integer. *)
Definition zero : spec_float := S754_zero false.
Definition of_Z (z : Z) : spec_float := binary_normalize prec emax z 0 false.

(** The literal [1e-12]: the float nearest to it, which is the quotient
    of two integers that floats hold exactly. *)
Definition eps : spec_float := div (of_Z 1) (of_Z 1000000000000).

(** [min(a, b)]: [b] when [b < a], else [a]. *)
Definition min (a b : spec_float) : spec_float := if ltb b a then b else a.

(** [clamp]: a float that is not finite becomes [0.0]. *)
Definition clamp (n : spec_float) : spec_float :=
  match n with
  | S754_infinity _ | S754_nan => zero
  | _ => n
  end.

(** The quantity of a tez operation whose amount is [mutez]:
    [clamp(safe_float(amount) / 1_000_000.0)]. *)
Definition xtz_of_mutez (mutez : Z) : spec_float :=
  clamp (div (of_Z mutez) (of_Z 1000000)).

(** [sum(...)] as a left fold from [0]. *)
Definition sum (l : list spec_float) : spec_float := fold_left add l zero.

(** The rational that a float stands for ([0] for what is not a number). *)
Definition to_Q (x : spec_float) : Q :=
  match x with
  | S754_finite s m e =>
      (if s then -1 else 1) * inject_Z (Z.pos m) * Qpower 2 e
  | _ => 0
  end.

End B64.

Declare Scope b64_scope.
Delimit Scope b64_scope with b64.
Infix "+" := B64.add : b64_scope.
Infix "-" := B64.sub : b64_scope.
Infix "*" := B64.mul : b64_scope.
Infix "/" := B64.div : b64_scope.
Infix "<?" := B64.ltb : b64_scope.
Infix "<=?" := B64.leb : b64_scope.

(** ** The FIFO loop in binary64

    The disposal loop of [classify_irs], as in [Irs], on floats. *)

Module Irs64.

Record Lot := {
  acquired_ts : Z;
  qty : spec_float;
  basis_per : spec_float
}.

Record LotDetail := {
  from_lot_acquired_ts : Z;
  take_qty : spec_float;
  basis_per_usd : spec_float
}.

Record Loop := {
  qty_to_dispose : spec_float;
  lots : list Lot;
  basis : spec_float;
  lot_details : list LotDetail
}.

Definition loop_guard (s : Loop) : bool :=
  (B64.eps <? qty_to_dispose s)%b64
  && match lots s with [] => false | _ :: _ => true end.

Definition loop_body (s : Loop) : Loop :=
  match lots s with
  | [] => s
  | lot :: rest =>
      let take := B64.min (qty_to_dispose s) (qty lot) in
      let lot' := {| acquired_ts := acquired_ts lot;
                     qty := (qty lot - take)%b64;
                     basis_per := basis_per lot |} in
      {| qty_to_dispose := (qty_to_dispose s - take)%b64;
         lots := if (qty lot' <=? B64.eps)%b64 then rest else lot' :: rest;
         basis := (basis s + take * basis_per lot)%b64;
         lot_details := lot_details s ++
           [{| from_lot_acquired_ts := acquired_ts lot;
               take_qty := take;
               basis_per_usd := basis_per lot |}] |}
  end.

Definition loop_start (q : spec_float) (xtz_lots : list Lot) : Loop :=
  {| qty_to_dispose := q; lots := xtz_lots; basis := B64.zero;
     lot_details := [] |}.

Definition fifo_loop (q : spec_float) (xtz_lots : list Lot) : option Loop :=
  while_fuel loop_guard loop_body (S (length xtz_lots)) (loop_start q xtz_lots).

Definition fifo_consume (q : spec_float) (xtz_lots : list Lot) : Loop :=
  match fifo_loop q xtz_lots with
  | Some s => s
  | None => loop_start q xtz_lots
  end.

End Irs64.

(** ** The matching steps of the HMRC engine in binary64

    [consume_from_list] and the three matching steps of a disposal, as
    in [Hmrc], on floats. *)

Module Hmrc64.

Record Acq := {
  ts : Z;
  dt : Z;
  qty : spec_float;
  cost_per : spec_float
}.

Definition FutureAcq : Type := Z * spec_float * spec_float * Z.

Inductive Match :=
| FromAcq (from_acq_ts : Z) (take_qty cost_per_gbp : spec_float)
| FromAcq30 (from_acq_ts : Z) (take_qty cost_per_gbp : spec_float)
| FromPool (take_qty avg_cost_per_gbp : spec_float).

Definition take_qty (u : Match) : spec_float :=
  match u with
  | FromAcq _ t _ | FromAcq30 _ t _ | FromPool t _ => t
  end.

Fixpoint consume_loop (lst : list Acq) (qty_needed cost : spec_float)
    (used : list Match) : list Acq * spec_float * list Match :=
  match lst with
  | [] => ([], cost, used)
  | rec :: rest =>
      if (B64.eps <? qty_needed)%b64 then
        let take := B64.min qty_needed (qty rec) in
        let cost' := (cost + take * cost_per rec)%b64 in
        let used' := used ++ [FromAcq (ts rec) take (cost_per rec)] in
        let rec' := {| ts := ts rec; dt := dt rec; qty := (qty rec - take)%b64;
                       cost_per := cost_per rec |} in
        if (qty rec' <=? B64.eps)%b64 then
          let '(rest', c, u) :=
            consume_loop rest (qty_needed - take)%b64 cost' used' in
          (rec' :: rest', c, u)
        else (rec' :: rest, cost', used')
      else (lst, cost, used)
  end.

Definition consume_from_list (lst : list Acq) (qty_needed : spec_float)
    : spec_float * list Match * list Acq :=
  let '(lst', cost, used) := consume_loop lst qty_needed B64.zero [] in
  (cost, used, List.filter (fun r => (B64.eps <? qty r)%b64) lst').

Definition eligible (dt : Z) (a : FutureAcq) : bool :=
  let '(adt, aqty, _, _) := a in
  (dt <? adt)%Z && (timedelta_days adt dt <=? 30)%Z && (B64.eps <? aqty)%b64.

Fixpoint write_back (future_acqs : list FutureAcq) (ts : Z) (take : spec_float)
    : list FutureAcq :=
  match future_acqs with
  | [] => []
  | (adt, aqty, cper, ts2) :: rest =>
      if (ts2 =? ts)%Z then (adt, (aqty - take)%b64, cper, ts2) :: rest
      else (adt, aqty, cper, ts2) :: write_back rest ts take
  end.

Fixpoint thirty_loop (thirty : list FutureAcq) (qty_left cost_total : spec_float)
    (match_used : list Match) (future_acqs : list FutureAcq)
    : spec_float * spec_float * list Match * list FutureAcq :=
  match thirty with
  | [] => (qty_left, cost_total, match_used, future_acqs)
  | (_, aqty, cost_per, ts) :: rest =>
      if (qty_left <=? B64.eps)%b64 then
        (qty_left, cost_total, match_used, future_acqs)
      else
        let take := B64.min qty_left aqty in
        thirty_loop rest (qty_left - take)%b64 (cost_total + take * cost_per)%b64
          (match_used ++ [FromAcq30 ts take cost_per])
          (write_back future_acqs ts take)
  end.

Definition thirty_of (dt : Z) (future_acqs : list FutureAcq) : list FutureAcq :=
  sort_by (fun x : FutureAcq => let '(adt, _, _, _) := x in adt)
          (List.filter (eligible dt) future_acqs).

Definition thirty_day_match (dt : Z) (qty_left cost_total : spec_float)
    (match_used : list Match) (future_acqs : list FutureAcq)
    : spec_float * spec_float * list Match * list FutureAcq :=
  if (B64.eps <? qty_left)%b64 then
    thirty_loop (thirty_of dt future_acqs) qty_left cost_total match_used
      future_acqs
  else (qty_left, cost_total, match_used, future_acqs).

Definition pool_match (qty_left cost_total pool_qty pool_cost_gbp : spec_float)
    : spec_float * list Match * spec_float * spec_float :=
  if (B64.eps <? qty_left)%b64 then
    if (pool_qty <=? B64.eps)%b64 then
      let pool_cost := B64.zero in
      ((cost_total + pool_cost)%b64, [], pool_qty, pool_cost_gbp)
    else
      let avg_cost := (pool_cost_gbp / pool_qty)%b64 in
      let pool_cost := (qty_left * avg_cost)%b64 in
      ((cost_total + pool_cost)%b64, [FromPool qty_left avg_cost],
       (pool_qty - qty_left)%b64, (pool_cost_gbp - pool_cost)%b64)
  else (cost_total, [], pool_qty, pool_cost_gbp).

Record State := {
  acq_by_day : gmap Z (list Acq);
  future_acqs : list FutureAcq;
  pool_qty : spec_float;
  pool_cost_gbp : spec_float
}.

Record Outcome := {
  o_acq_by_day : gmap Z (list Acq);
  o_future_acqs : list FutureAcq;
  o_match_used : list Match;
  o_qty_left : spec_float;
  o_pool_used : list Match;
  o_cost_total : spec_float;
  o_pool_qty : spec_float;
  o_pool_cost_gbp : spec_float
}.

Definition start : State :=
  {| acq_by_day := ∅; future_acqs := []; pool_qty := B64.zero;
     pool_cost_gbp := B64.zero |}.

(** An acquisition met in the second pass: its quantity and its cost
    join the pool. *)
Definition credit (s : State) (quantity fmv_gbp : spec_float) : State :=
  {| acq_by_day := acq_by_day s;
     future_acqs := future_acqs s;
     pool_qty := (pool_qty s + quantity)%b64;
     pool_cost_gbp := (pool_cost_gbp s + quantity * fmv_gbp)%b64 |}.

Section Matching.
(** The built-in [sum], which the engine applies to the same-day takes:
    a float for every list of floats, [0 + x] for the list of one float
    [x].  (How it adds up longer lists depends on the version of the
    interpreter; nothing below depends on it.) *)
Variable py_sum : list spec_float -> spec_float.

Definition matching (s : State) (dt : Z) (qty : spec_float) : Outcome :=
  let day := day_of dt in
  let same_day_list := default [] (acq_by_day s !! day) in
  let '(same_day_cost, same_day_used, same_day_list') :=
    consume_from_list same_day_list qty in
  let buckets := match acq_by_day s !! day with
                 | Some _ => <[day := same_day_list']> (acq_by_day s)
                 | None => acq_by_day s
                 end in
  let qty_left := (qty - py_sum (map take_qty same_day_used))%b64 in
  let '(qty_left, cost_total, match_used, future) :=
    thirty_day_match dt qty_left same_day_cost same_day_used (future_acqs s) in
  let '(cost_total, pool_used, pool_qty', pool_cost_gbp') :=
    pool_match qty_left cost_total (pool_qty s) (pool_cost_gbp s) in
  {| o_acq_by_day := buckets;
     o_future_acqs := future;
     o_match_used := match_used;
     o_qty_left := qty_left;
     o_pool_used := pool_used;
     o_cost_total := cost_total;
     o_pool_qty := pool_qty';
     o_pool_cost_gbp := pool_cost_gbp' |}.
End Matching.

End Hmrc64.

(** ** Observations used in the statements *)

(** The quantity the breakdown of a FIFO disposal accounts for, the cost
    its entries carry, and the quantity held by a queue of lots. *)
Definition irs_taken (details : list Irs.LotDetail) : Q :=
  py_sum (map Irs.take_qty details).

Definition irs_entries_cost (details : list Irs.LotDetail) : Q :=
  py_sum (map (fun x => Irs.take_qty x * Irs.basis_per_usd x) details).


(** The same for a breakdown of the HMRC engine. *)
Definition hmrc_taken (used : list Hmrc.Match) : Q :=
  py_sum (map Hmrc.take_qty used).

Definition hmrc_entry_cost (u : Hmrc.Match) : Q :=
  match u with
  | Hmrc.FromAcq _ t c | Hmrc.FromAcq30 _ t c | Hmrc.FromPool t c => t * c
  end.

Definition hmrc_entries_cost (used : list Hmrc.Match) : Q :=
  py_sum (map hmrc_entry_cost used).

(** The bound on the iterations of the FIFO loop that are left. *)
Definition loop_measure (s : Irs.Loop) : nat :=
  if Irs.loop_guard s then S (length (Irs.lots s)) else 0%nat.



(** Where an entry of [match_used] comes from: the bucket of the
    disposal's day, or an entry of [future_acqs] that passes the
    30-day filter. *)
Definition entry_source (s : Hmrc.State) (dt : Z) (x : Hmrc.Match) : Prop :=
  (exists rec, In rec (default [] (Hmrc.acq_by_day s !! day_of dt)) /\
     x = Hmrc.FromAcq (Hmrc.ts rec) (Hmrc.take_qty x) (Hmrc.cost_per rec)) \/
  (exists adt aqty cper ts, In (adt, aqty, cper, ts) (Hmrc.future_acqs s) /\
     Hmrc.eligible dt (adt, aqty, cper, ts) = true /\
     x = Hmrc.FromAcq30 ts (Hmrc.take_qty x) cper).

(** An entry of [future_acqs] whose parsed instant is that of its
    timestamp, as the first pass writes them. *)
Definition stamped (a : Hmrc.FutureAcq) : Prop :=
  let '(adt, _, _, ts) := a in adt = ts.

(** A record whose 30-day entries all name acquisitions strictly after
    the disposal and less than 31 days after it. *)
Definition in_window (d : Hmrc.Disposal) : Prop :=
  forall ts t c,
    In (Hmrc.FromAcq30 ts t c) (Hmrc.matching_breakdown_json d) ->
    (Hmrc.d_timestamp d < ts)%Z /\ (ts < Hmrc.d_timestamp d + 31 * 86400)%Z.

(** The record that [Hmrc.step] writes for a disposal [e] met in state
    [s]. *)
Definition hmrc_record (gbp : Z -> Q) (s : Hmrc.State) (e : Event)
    : Hmrc.Disposal :=
  Hmrc.row gbp e (Hmrc.matching s (timestamp e) (quantity e)).

(** The order of a sort by [key], and ascending timestamps. *)
Definition le_key {A : Type} (key : A -> Z) (a b : A) : Prop :=
  (key a <= key b)%Z.

Definition ascending (events : list Event) : Prop :=
  StronglySorted (le_key timestamp) events.

(** ** Scenarios *)

Definition xtz (t : Z) (d : Direction) (q : Q) : Event :=
  {| timestamp := t; level := 0; op_hash := ""; kind := XtzTransfer;
     direction := d; counterparty := ""; asset := "XTZ"; quantity := q;
     fee_xtz := 0; note := "transfer"; tags := ""; confidence := "medium" |}.

(** Noon of the [n]-th day. *)
Definition noon (n : Z) : Z := (n * 86400 + 43200)%Z.

Definition flat_price (p : Q) (day : Z) : Q := p.

(** "Acquire 10 units at cost 2 on day 1; dispose 4 units at price 5 on
    day 2." *)
Definition scenario_price (day : Z) : Q := if (day =? 1)%Z then 2 else 5.

Definition scenario_events : list Event :=
  [xtz (noon 1) DirIn 10; xtz (noon 2) DirOut 4].


(** A disposal on day 1, an acquisition of 5 on day 10 and a disposal
    later on day 10. *)
Definition twice_matched_events : list Event :=
  [xtz (noon 1) DirOut 5; xtz (noon 10) DirIn 5;
   xtz (noon 10 + 3600) DirOut 5].

(** The quantity that the breakdowns of a run match, under the same-day
    and the 30-day rule together, against the acquisition stamped [t]. *)
Definition matched_against (t : Z) (ds : list Hmrc.Disposal) : Q :=
  py_sum
    (flat_map
       (fun d =>
          flat_map
            (fun u =>
               match u with
               | Hmrc.FromAcq t' q _ | Hmrc.FromAcq30 t' q _ =>
                   if (t' =? t)%Z then [q] else []
               | Hmrc.FromPool _ _ => []
               end)
            (Hmrc.matching_breakdown_json d))
       ds).

(** An acquisition of 1 on day 1 and a disposal of 2 on day 3. *)
Definition overdrawn_events : list Event :=
  [xtz (noon 1) DirIn 1; xtz (noon 3) DirOut 2].

(** The scenario with the disposal listed before the acquisition. *)
Definition unsorted_events : list Event :=
  [xtz (noon 2) DirOut 4; xtz (noon 1) DirIn 10].

(** An endpoint whose documents hold no price, and an oracle that has
    not looked anything up yet. *)
Definition no_price_http (date : Z) : HttpAnswer := HttpJson None.

Definition fresh_oracle : PriceOracle := {| vs := "gbp"; cache := ∅ |}.

(** A transfer of 3 tez from the scanned address to itself. *)
Definition self_address : string := "tz1VSUr8wwNhLAzempoch5d6hLRiTh8Cjcjb".

Definition self_transfer_op : XtzOp :=
  {| op_timestamp := Some (noon 5); op_sender := self_address;
     op_target := self_address; op_amount := 3000000; op_fee := 400;
     op_parameter := false; op_level := 7; op_hash_field := "op" |}.

(** A disposal of 5 units with nothing acquired before it. *)
Definition short_events : list Event := [xtz (noon 1) DirOut 5].

(** A state of the HMRC engine with 10 units pooled at a cost of 20 and
    nothing to match by day. *)
Definition pooled_state : Hmrc.State :=
  {| Hmrc.acq_by_day := ∅; Hmrc.future_acqs := []; Hmrc.pool_qty := 10;
     Hmrc.pool_cost_gbp := 20; Hmrc.disposals := [] |}.



(** ** Further observations and scenarios *)

(** An event that the engines price: tez, with a positive quantity. *)
Definition pos_xtz (e : Event) : bool := is_xtz e && Qlt_bool 0 (quantity e).

(** An event for which the engines write a disposal record. *)
Definition is_disposal (e : Event) : bool :=
  is_xtz e && is_out (direction e) && Qlt_bool 0 (quantity e).

(** What identifies the disposal of an event in the records of either
    engine: timestamp, quantity and operation hash. *)
Definition event_key (e : Event) : Z * Q * string :=
  (timestamp e, quantity e, op_hash e).

Definition irs_key (d : Irs.Disposal) : Z * Q * string :=
  (Irs.d_timestamp d, Irs.qty_disposed d, Irs.d_op_hash d).

Definition hmrc_key (d : Hmrc.Disposal) : Z * Q * string :=
  (Hmrc.d_timestamp d, Hmrc.qty_disposed d, Hmrc.d_op_hash d).

(** The events [build_events] gathers, before it sorts them. *)
Definition gathered (address : string) (xtz_ops : list XtzOp)
    (tok_ops : list TokenTransferOp) : list Event :=
  (omap (xtz_event (lower address)) xtz_ops
   ++ omap (token_event (lower address)) tok_ops)%list.

(** The elements of a list with a given key. *)
Definition with_key {A : Type} (key : A -> Z) (k : Z) (l : list A) : list A :=
  List.filter (fun a => (key a =? k)%Z) l.

(** Whether a string holds a colon. *)
Fixpoint has_colon (s : string) : bool :=
  match s with
  | EmptyString => false
  | String c r => (c =? ":")%char || has_colon r
  end.

(** A contract call from the scanned address that moves no tez. *)
Definition fee_only_op : XtzOp :=
  {| op_timestamp := Some (noon 6); op_sender := self_address;
     op_target := "KT1PWx2mnDueood7fEmfbBDKx1D9BAnnXitn"; op_amount := 0;
     op_fee := 1200; op_parameter := true; op_level := 9;
     op_hash_field := "oq" |}.

(** An event for which the FIFO engine opens a lot. *)
Definition is_acquisition (e : Event) : bool :=
  is_xtz e && is_in (direction e) && Qlt_bool 0 (quantity e).

(** The quantity acquired by a list of events. *)
Definition acquired (events : list Event) : Q :=
  py_sum (map quantity (List.filter is_acquisition events)).

(** Half a unit of the eighth decimal. *)
Definition half_ulp8 : Q := 1 # 200000000.

(** The bucket of the day of a disposal, the entries that the same-day
    step takes from it, and what it leaves of the disposal. *)
Definition same_day_bucket (s : Hmrc.State) (dt : Z) : list Hmrc.Acq :=
  default [] (Hmrc.acq_by_day s !! day_of dt).

Definition same_day_used (s : Hmrc.State) (dt : Z) (q : Q) : list Hmrc.Match :=
  snd (fst (Hmrc.consume_from_list (same_day_bucket s dt) q)).

Definition same_day_left (s : Hmrc.State) (dt : Z) (q : Q) : Q :=
  q - hmrc_taken (same_day_used s dt q).

(** The record and the tuple that the first pass writes for an
    acquisition. *)
Definition bucket_record (gbp : Z -> Q) (e : Event) : Hmrc.Acq :=
  {| Hmrc.ts := timestamp e; Hmrc.dt := timestamp e;
     Hmrc.qty := quantity e;
     Hmrc.cost_per := gbp (day_of (timestamp e)) |}.

Definition future_record (gbp : Z -> Q) (e : Event) : Hmrc.FutureAcq :=
  (timestamp e, quantity e, gbp (day_of (timestamp e)), timestamp e).

(** The quantity, and everything but the quantity, of an entry of
    [future_acqs]. *)
Definition future_qty_of (a : Hmrc.FutureAcq) : Q :=
  let '(_, aqty, _, _) := a in aqty.

Definition future_id (a : Hmrc.FutureAcq) : Z * Q * Z :=
  let '(adt, _, cper, ts) := a in (adt, cper, ts).

Definition future_ts (a : Hmrc.FutureAcq) : Z :=
  let '(_, _, _, ts) := a in ts.

Definition future_qty (fa : list Hmrc.FutureAcq) : Q :=
  py_sum (map future_qty_of fa).

(** A state of the HMRC engine with 10 units acquired a minute before
    noon of day 4, in the bucket of that day and in the pool. *)
Definition same_day_state : Hmrc.State :=
  {| Hmrc.acq_by_day :=
       {[ 4%Z := [bucket_record (flat_price 2) (xtz (noon 4 - 60) DirIn 10)] ]};
     Hmrc.future_acqs :=
       [future_record (flat_price 2) (xtz (noon 4 - 60) DirIn 10)];
     Hmrc.pool_qty := 10; Hmrc.pool_cost_gbp := 20; Hmrc.disposals := [] |}.

(** An endpoint that quotes 0.7 for every day. *)
Definition priced_http (date : Z) : HttpAnswer := HttpJson (Some (7 # 10)).

(** The quantity and the cost that the pool entries of a list of HMRC
    records take from the pool. *)
Definition pool_part (used : list Hmrc.Match) : list Hmrc.Match :=
  List.filter (fun u => match u with Hmrc.FromPool _ _ => true | _ => false end)
    used.

Definition pool_debits (ds : list Hmrc.Disposal) : Q :=
  py_sum (map (fun d => hmrc_taken (pool_part (Hmrc.matching_breakdown_json d)))
            ds).

Definition pool_debit_costs (ds : list Hmrc.Disposal) : Q :=
  py_sum (map (fun d => hmrc_entries_cost
                          (pool_part (Hmrc.matching_breakdown_json d))) ds).

(** The cost of what a list of events acquires, at the price of the day
    of each acquisition. *)
Definition acquired_cost (gbp : Z -> Q) (events : list Event) : Q :=
  py_sum (map (fun e => quantity e * gbp (day_of (timestamp e)))
            (List.filter is_acquisition events)).

(** A transfer of one token from the scanned address to itself. *)
Definition token_self_transfer : TokenTransferOp :=
  {| tr_timestamp := Some (noon 7); tr_from := self_address;
     tr_to := self_address;
     tr_contract := "KT1PWx2mnDueood7fEmfbBDKx1D9BAnnXitn";
     tr_token_id := Some "0"%string; tr_standard := "fa2"; tr_symbol := Some "XTZ"%string;
     tr_name := None; tr_decimals := DecText (Some 6%Z); tr_amount := 1000000;
     tr_level := 11; tr_transaction_hash := "ot" |}.


(** The state of the HMRC engine after its first pass over [events], and
    after the second pass over the first [n] of them. *)
Definition indexed (gbp : Z -> Q) (events : list Event) : Hmrc.State :=
  fold_left (Hmrc.record_acq gbp) (Hmrc.xtz_events_of events) Hmrc.start.



(** A disposal of 5 units at noon of day 1 and an acquisition of 5 units
    one second before noon of day 32: 30 days, 23 hours, 59 minutes and
    59 seconds later, on the 31st calendar day after the disposal. *)
Definition late_window_events : list Event :=
  [xtz (noon 1) DirOut 5; xtz (noon 32 - 1) DirIn 5].

(** The second of the day of an instant. *)
Definition time_of_day (dt : Z) : Z := (dt mod 86400)%Z.

(** ** Observations and scenarios in binary64 *)

(** The residual of a disposal as the engines compute it: the disposed
    quantity less each take in turn. *)
Definition running_residual (q : spec_float) (takes : list spec_float)
    : spec_float :=
  fold_left B64.sub takes q.

(** The entries of the same-day step and those of the 30-day step. *)
Definition is_same_day (u : Hmrc64.Match) : Prop :=
  match u with Hmrc64.FromAcq _ _ _ => True | _ => False end.

Definition is_thirty_day (u : Hmrc64.Match) : Prop :=
  match u with Hmrc64.FromAcq30 _ _ _ => True | _ => False end.

(** The tolerance as a rational. *)
Definition eps64 : Q := B64.to_Q B64.eps.

(** A lot and a bucket record of [mutez] millionths of a tez, priced 2. *)
Definition lot64 (t : Z) (mutez : Z) : Irs64.Lot :=
  {| Irs64.acquired_ts := t; Irs64.qty := B64.xtz_of_mutez mutez;
     Irs64.basis_per := B64.of_Z 2 |}.

Definition acq64 (t : Z) (mutez : Z) : Hmrc64.Acq :=
  {| Hmrc64.ts := t; Hmrc64.dt := t; Hmrc64.qty := B64.xtz_of_mutez mutez;
     Hmrc64.cost_per := B64.of_Z 2 |}.

(** Two open lots of 1728.323273 and 28381.497771 tez, and a disposal
    of 28246.865341 tez. *)
Definition rounding_lots : list Irs64.Lot :=
  [lot64 (noon 1) 1728323273; lot64 (noon 2) 28381497771].

Definition rounding_disposal : spec_float := B64.xtz_of_mutez 28246865341.

(** A day bucket of 4923.572717 and 19076.276259 tez, both in a pool of
    24000 tez that cost 48000, and a disposal of 16134.86829 tez. *)
Definition rounding_state : Hmrc64.State :=
  {| Hmrc64.acq_by_day :=
       {[ 4%Z := [acq64 (noon 4 - 60) 4923572717;
                  acq64 (noon 4 - 30) 19076276259] ]};
     Hmrc64.future_acqs := [];
     Hmrc64.pool_qty := B64.of_Z 24000;
     Hmrc64.pool_cost_gbp := B64.of_Z 48000 |}.

Definition rounding_same_day_disposal : spec_float :=
  B64.xtz_of_mutez 16134868290.

(** Whether an entry is a same-day entry. *)
Definition is_same_day_b (u : Hmrc64.Match) : bool :=
  match u with Hmrc64.FromAcq _ _ _ => true | _ => false end.

(** Ten tez acquired a minute before noon of day 4, in the bucket of
    that day, in [future_acqs] and in the pool. *)
Definition same_day_state64 : Hmrc64.State :=
  {| Hmrc64.acq_by_day := {[ 4%Z := [acq64 (noon 4 - 60) 10000000] ]};
     Hmrc64.future_acqs := [(noon 4 - 60, B64.of_Z 10, B64.of_Z 2, noon 4 - 60)%Z];
     Hmrc64.pool_qty := B64.of_Z 10;
     Hmrc64.pool_cost_gbp := B64.of_Z 20 |}.

(** A pool credited with 1 tez at a price of 0.1 and 2 tez at a price
    of 0.9, and nothing to match by day. *)
Definition two_price_pool : Hmrc64.State :=
  Hmrc64.credit
    (Hmrc64.credit Hmrc64.start (B64.of_Z 1) (B64.div (B64.of_Z 1) (B64.of_Z 10)))
    (B64.of_Z 2) (B64.div (B64.of_Z 9) (B64.of_Z 10)).

(* ================================================================= *)
(** * Properties *)

(** ** Rational tests *)

Lemma Qlt_bool_iff (x y : Q) : Qlt_bool x y = true <-> x < y.
Proof.
  unfold Qlt_bool. rewrite negb_true_iff. split; intro H.
  - apply Qnot_le_lt. intro L. apply Qle_bool_iff in L. congruence.
  - destruct (Qle_bool y x) eqn:E; [|reflexivity].
    apply Qle_bool_iff in E. lra.
Qed.

Lemma Qlt_bool_false (x y : Q) : Qlt_bool x y = false <-> y <= x.
Proof.
  unfold Qlt_bool. rewrite negb_false_iff. apply Qle_bool_iff.
Qed.

Lemma Qle_bool_false (x y : Q) : Qle_bool x y = false <-> y < x.
Proof.
  split; intro H.
  - apply Qnot_le_lt. intro L. apply Qle_bool_iff in L. congruence.
  - destruct (Qle_bool x y) eqn:E; [|reflexivity].
    apply Qle_bool_iff in E. lra.
Qed.

(** Turns the boolean tests among the hypotheses into inequalities. *)
Ltac qtests :=
  repeat match goal with
  | H : Qlt_bool _ _ = true |- _ => apply Qlt_bool_iff in H
  | H : Qlt_bool _ _ = false |- _ => apply Qlt_bool_false in H
  | H : Qle_bool _ _ = true |- _ => apply Qle_bool_iff in H
  | H : Qle_bool _ _ = false |- _ => apply Qle_bool_false in H
  end.

(** Splits a conjunction into its parts, and nothing else. *)
Ltac conjs := repeat match goal with |- _ /\ _ => split end.

Lemma Qmin_cases (x y : Q) :
  (x <= y /\ Qmin x y == x) \/ (y < x /\ Qmin x y == y).
Proof.
  destruct (Q.min_spec x y) as [[H E]|[H E]].
  - left. split; [lra | exact E].
  - destruct (Qlt_le_dec y x) as [L|L].
    + right. split; [exact L | exact E].
    + left. split; [exact L |]. rewrite E. lra.
Qed.

Lemma eps_pos : 0 < eps.
Proof. reflexivity. Qed.

(** ** Sums *)

Lemma fold_left_Qplus (l : list Q) (a : Q) :
  fold_left Qplus l a == a + py_sum l.
Proof.
  unfold py_sum. revert a. induction l as [|x l IH]; intro a; cbn [fold_left].
  - ring.
  - rewrite (IH (a + x)), (IH (0 + x)). ring.
Qed.

Lemma py_sum_cons (x : Q) (l : list Q) : py_sum (x :: l) == x + py_sum l.
Proof.
  unfold py_sum at 1. cbn [fold_left]. rewrite fold_left_Qplus. ring.
Qed.

Lemma py_sum_app (l l' : list Q) : py_sum (l ++ l') == py_sum l + py_sum l'.
Proof.
  induction l as [|x l IH]; cbn [app].
  - unfold py_sum at 2. cbn [fold_left]. ring.
  - rewrite !py_sum_cons, IH. ring.
Qed.

Lemma py_sum_snoc (l : list Q) (x : Q) : py_sum (l ++ [x]) == py_sum l + x.
Proof.
  rewrite py_sum_app, py_sum_cons. unfold py_sum at 2. cbn [fold_left]. ring.
Qed.

(** ** Rounding *)

Lemma round8_proper (x y : Q) : x == y -> round8 x = round8 y.
Proof.
  intro E. unfold round8.
  assert (F : Qfloor (x * (100000000 # 1)) = Qfloor (y * (100000000 # 1)))
    by (apply Qfloor_comp; rewrite E; reflexivity).
  rewrite F.
  assert (C : Qcompare (x * (100000000 # 1)
                        - inject_Z (Qfloor (y * (100000000 # 1)))) (1 # 2)
              = Qcompare (y * (100000000 # 1)
                          - inject_Z (Qfloor (y * (100000000 # 1)))) (1 # 2))
    by (apply Qcompare_comp; [rewrite E|]; reflexivity).
  rewrite C. reflexivity.
Qed.

(** ** Stable sort *)

Section StableSortFacts.
Context {A : Type} (key : A -> Z).

Lemma insert_by_least (x : A) (l : list A) :
  Forall (le_key key x) l -> insert_by key x l = x :: l.
Proof.
  destruct l as [|y r]; [reflexivity|]. intro H. simpl.
  inversion H as [|? ? Hy _]; subst. unfold le_key in Hy.
  apply Z.leb_le in Hy. rewrite Hy. reflexivity.
Qed.

Lemma In_insert_by (x z : A) (l : list A) :
  In z (insert_by key x l) <-> z = x \/ In z l.
Proof.
  induction l as [|y r IH]; simpl.
  - intuition.
  - destruct (key x <=? key y)%Z; simpl; [intuition|].
    rewrite IH. intuition.
Qed.

Lemma In_sort_by (z : A) (l : list A) : In z (sort_by key l) <-> In z l.
Proof.
  induction l as [|x r IH]; simpl; [reflexivity|].
  rewrite In_insert_by, IH. intuition.
Qed.

Lemma insert_by_sorted (x : A) (l : list A) :
  StronglySorted (le_key key) l -> StronglySorted (le_key key) (insert_by key x l).
Proof.
  induction l as [|y r IH]; intro H; simpl.
  - constructor; constructor.
  - inversion H as [|? ? Hr Hy]; subst.
    destruct (key x <=? key y)%Z eqn:E.
    + apply Z.leb_le in E. constructor; [exact H|].
      constructor; [exact E|].
      eapply List.Forall_impl; [|exact Hy].
      intros a Ha. unfold le_key in *. lia.
    + apply Z.leb_gt in E. constructor; [apply IH; exact Hr|].
      apply List.Forall_forall. intros z Hz. apply In_insert_by in Hz.
      destruct Hz as [->|Hz].
      * unfold le_key. lia.
      * rewrite List.Forall_forall in Hy. apply Hy. exact Hz.
Qed.

Lemma sort_by_sorted (l : list A) : StronglySorted (le_key key) (sort_by key l).
Proof.
  induction l as [|x r IH]; simpl.
  - constructor.
  - apply insert_by_sorted. exact IH.
Qed.

Lemma sort_by_fixed (l : list A) :
  StronglySorted (le_key key) l -> sort_by key l = l.
Proof.
  induction l as [|x r IH]; intro H; simpl; [reflexivity|].
  inversion H as [|? ? Hr Hx]; subst.
  rewrite (IH Hr). apply insert_by_least. exact Hx.
Qed.

Lemma filter_insert_by (p : A -> bool) (x : A) (l : list A) :
  StronglySorted (le_key key) l ->
  List.filter p (insert_by key x l)
  = if p x then insert_by key x (List.filter p l) else List.filter p l.
Proof.
  induction l as [|y r IH]; intro H; simpl.
  - destruct (p x); reflexivity.
  - inversion H as [|? ? Hr Hy]; subst.
    destruct (key x <=? key y)%Z eqn:E; simpl.
    + destruct (p x) eqn:Px; [|reflexivity].
      symmetry. apply (insert_by_least x (List.filter p (y :: r))).
      apply Z.leb_le in E.
      apply List.Forall_forall. intros z Hz.
      apply filter_In in Hz. destruct Hz as [Hz _].
      destruct Hz as [<-|Hz]; [exact E|].
      rewrite List.Forall_forall in Hy. specialize (Hy z Hz).
      unfold le_key in *. lia.
    + rewrite (IH Hr). destruct (p y), (p x); simpl; try reflexivity.
      rewrite E. reflexivity.
Qed.

Lemma filter_sort_by (p : A -> bool) (l : list A) :
  List.filter p (sort_by key l) = sort_by key (List.filter p l).
Proof.
  induction l as [|x r IH]; simpl; [reflexivity|].
  rewrite filter_insert_by by apply sort_by_sorted.
  rewrite IH. destruct (p x); reflexivity.
Qed.
End StableSortFacts.

(** ** While loops *)

Section WhileFacts.
Context {S : Type} (guard : S -> bool) (body : S -> S).

(** The rule of the loop invariant. *)
Lemma while_fuel_invariant (P : S -> Prop) :
  (forall s, P s -> guard s = true -> P (body s)) ->
  forall fuel s s', P s -> while_fuel guard body fuel s = Some s' ->
  P s' /\ guard s' = false.
Proof.
  intros Hstep fuel. induction fuel as [|n IH]; intros s s' Hs Hrun;
    simpl in Hrun; destruct (guard s) eqn:G; try discriminate.
  - injection Hrun as <-. split; assumption.
  - eapply IH; [|exact Hrun]. apply Hstep; assumption.
  - injection Hrun as <-. split; assumption.
Qed.

(** A measure that every iteration decreases bounds the iterations. *)
Lemma while_fuel_terminates (m : S -> nat) :
  (forall s, guard s = true -> (m (body s) < m s)%nat) ->
  forall fuel s, (m s <= fuel)%nat ->
  exists s', while_fuel guard body fuel s = Some s'.
Proof.
  intros Hdec fuel. induction fuel as [|n IH]; intros s Hm; simpl;
    destruct (guard s) eqn:G; eauto.
  - specialize (Hdec s G). lia.
  - apply IH. specialize (Hdec s G). lia.
Qed.
End WhileFacts.

(** ** The FIFO disposal loop *)

Section FifoLoop.
Import Irs.

(** What one iteration does, when the guard lets it run. *)
Lemma loop_body_eq (s : Loop) :
  loop_guard s = true ->
  exists lot rest take,
    lots s = lot :: rest /\ eps < qty_to_dispose s /\
    ((qty_to_dispose s <= qty lot /\ take == qty_to_dispose s) \/
     (qty lot < qty_to_dispose s /\ take == qty lot)) /\
    qty_to_dispose (loop_body s) = qty_to_dispose s - take /\
    basis (loop_body s) = basis s + take * basis_per lot /\
    lot_details (loop_body s) = lot_details s ++
      [{| from_lot_acquired_ts := acquired_ts lot; take_qty := take;
          basis_per_usd := basis_per lot |}] /\
    ((qty lot - take <= eps /\ lots (loop_body s) = rest) \/
     (eps < qty lot - take /\
      lots (loop_body s) =
        {| acquired_ts := acquired_ts lot; qty := qty lot - take;
           basis_per := basis_per lot |} :: rest)).
Proof.
  unfold loop_guard, loop_body. intro G.
  apply andb_true_iff in G. destruct G as [G1 G2]. qtests.
  destruct (lots s) as [|lot rest]; [discriminate|].
  exists lot, rest, (Qmin (qty_to_dispose s) (qty lot)).
  repeat split; try assumption; try reflexivity.
  - apply Qmin_cases.
  - cbn [qty lots].
    destruct (Qle_bool (qty lot - Qmin (qty_to_dispose s) (qty lot)) eps)
      eqn:E; qtests; [left|right]; split; auto.
Qed.

Lemma loop_measure_decreases (s : Loop) :
  loop_guard s = true -> (loop_measure (loop_body s) < loop_measure s)%nat.
Proof.
  intro G. unfold loop_measure at 2. rewrite G.
  destruct (loop_body_eq s G)
    as (lot & rest & take & Hl & Hq & Ht & Hq' & _ & _ & Hpop).
  rewrite Hl. cbn [length]. unfold loop_measure.
  destruct (loop_guard (loop_body s)) eqn:G'; [|lia].
  destruct Hpop as [[_ ->]|[Hrem ->]]; [lia|].
  exfalso. unfold loop_guard in G'. apply andb_true_iff in G'.
  destruct G' as [G' _]. qtests. rewrite Hq' in G'.
  pose proof eps_pos. destruct Ht as [[_ E]|[_ E]]; lra.
Qed.

(** The loop always ends within the bound [fifo_loop] gives it. *)
Lemma fifo_loop_terminates (q : Q) (open : list Lot) :
  fifo_loop q open = Some (fifo_consume q open).
Proof.
  unfold fifo_consume.
  destruct (while_fuel_terminates loop_guard loop_body loop_measure
              loop_measure_decreases (S (length open)) (loop_start q open))
    as [s Hs].
  - unfold loop_measure. destruct (loop_guard _); simpl; lia.
  - unfold fifo_loop. rewrite Hs. reflexivity.
Qed.

Lemma fifo_invariant (P : Loop -> Prop) (q : Q) (open : list Lot) :
  P (loop_start q open) ->
  (forall s, P s -> loop_guard s = true -> P (loop_body s)) ->
  P (fifo_consume q open) /\ loop_guard (fifo_consume q open) = false.
Proof.
  intros H0 Hstep.
  eapply while_fuel_invariant; [exact Hstep | exact H0 |].
  apply fifo_loop_terminates.
Qed.


(** The entries account for what has left the disposal so far, and
    the basis is their cost. *)
Lemma fifo_taken (q : Q) (open : list Lot) :
  irs_taken (lot_details (fifo_consume q open))
    == q - qty_to_dispose (fifo_consume q open) /\
  basis (fifo_consume q open)
    == irs_entries_cost (lot_details (fifo_consume q open)).
Proof.
  apply (fifo_invariant
           (fun s => irs_taken (lot_details s) == q - qty_to_dispose s /\
                     basis s == irs_entries_cost (lot_details s))).
  - cbn. split; unfold irs_taken, irs_entries_cost, py_sum; cbn; ring.
  - intros s [I1 I2] G.
    destruct (loop_body_eq s G)
      as (lot & rest & take & _ & _ & _ & -> & -> & -> & _).
    unfold irs_taken, irs_entries_cost in *.
    rewrite !map_app. cbn [map take_qty basis_per_usd].
    rewrite !py_sum_snoc, I1, I2. split; ring.
Qed.




End FifoLoop.

(** ** The three matching steps of the HMRC engine *)

Section HmrcMatching.
Import Hmrc.

Lemma hmrc_taken_app (u v : list Match) :
  hmrc_taken (u ++ v) == hmrc_taken u + hmrc_taken v.
Proof. unfold hmrc_taken. rewrite map_app. apply py_sum_app. Qed.

Lemma hmrc_entries_cost_app (u v : list Match) :
  hmrc_entries_cost (u ++ v) == hmrc_entries_cost u + hmrc_entries_cost v.
Proof. unfold hmrc_entries_cost. rewrite map_app. apply py_sum_app. Qed.

Lemma hmrc_taken_one (u : Match) : hmrc_taken [u] == take_qty u.
Proof. unfold hmrc_taken, py_sum. cbn [map fold_left]. ring. Qed.

Lemma hmrc_entries_cost_one (u : Match) :
  hmrc_entries_cost [u] == hmrc_entry_cost u.
Proof. unfold hmrc_entries_cost, py_sum. cbn [map fold_left]. ring. Qed.

Lemma hmrc_taken_nil : hmrc_taken [] == 0.
Proof. reflexivity. Qed.

Lemma hmrc_entries_cost_nil : hmrc_entries_cost [] == 0.
Proof. reflexivity. Qed.

(** Same-day step: the entries added, their cost, and what is left. *)
Lemma consume_loop_spec (lst : list Acq) :
  forall q c u lst' c' u',
  consume_loop lst q c u = (lst', c', u') ->
  exists new, u' = u ++ new /\
    c' == c + hmrc_entries_cost new /\
    (0 <= q -> 0 <= q - hmrc_taken new) /\
    Forall (fun x => exists rec, In rec lst /\
              x = FromAcq (ts rec) (take_qty x) (cost_per rec)) new.
Proof.
  induction lst as [|rec rest IH]; intros q c u lst' c' u' H; cbn in H.
  - injection H as <- <- <-. exists []. rewrite app_nil_r.
    rewrite hmrc_entries_cost_nil, hmrc_taken_nil.
    conjs; [reflexivity | ring | intro; lra | constructor].
  - destruct (Qlt_bool eps q) eqn:Hq.
    + destruct (Qle_bool (qty rec - Qmin q (qty rec)) eps) eqn:Hrem.
      * destruct (consume_loop rest _ _ _) as [[r2 c2] u2] eqn:Hrec.
        injection H as <- <- <-.
        destruct (IH _ _ _ _ _ _ Hrec) as (new & -> & Hc & Hleft & Hall).
        exists (FromAcq (ts rec) (Qmin q (qty rec)) (cost_per rec) :: new).
        rewrite <- app_assoc. split; [reflexivity|].
        change (?x :: new) with ([x] ++ new).
        rewrite hmrc_entries_cost_app, hmrc_taken_app,
          hmrc_entries_cost_one, hmrc_taken_one.
        cbn [hmrc_entry_cost take_qty]. conjs.
        -- rewrite Hc. ring.
        -- intro Hq0.
           assert (0 <= q - Qmin q (qty rec))
             by (destruct (Qmin_cases q (qty rec)) as [[_ E]|[L E]]; lra).
           specialize (Hleft H). lra.
        -- constructor.
           ++ exists rec. split; [left; reflexivity | reflexivity].
           ++ eapply List.Forall_impl; [|exact Hall].
              intros x (r & Hin & Hx). exists r. split; [right|]; assumption.
      * injection H as <- <- <-.
        exists [FromAcq (ts rec) (Qmin q (qty rec)) (cost_per rec)].
        rewrite hmrc_entries_cost_one, hmrc_taken_one.
        cbn [hmrc_entry_cost take_qty]. conjs.
        -- reflexivity.
        -- ring.
        -- intro Hq0.
           destruct (Qmin_cases q (qty rec)) as [[_ E]|[L E]]; lra.
        -- constructor; [|constructor].
           exists rec. split; [left; reflexivity | reflexivity].
    + injection H as <- <- <-. exists []. rewrite app_nil_r.
      rewrite hmrc_entries_cost_nil, hmrc_taken_nil.
      conjs; [reflexivity | ring | intro; lra | constructor].
Qed.

Lemma consume_from_list_spec (lst : list Acq) (q : Q) :
  forall cost used lst',
  consume_from_list lst q = (cost, used, lst') ->
  cost == hmrc_entries_cost used /\
  (0 <= q -> 0 <= q - hmrc_taken used) /\
  Forall (fun x => exists rec, In rec lst /\
            x = FromAcq (ts rec) (take_qty x) (cost_per rec)) used.
Proof.
  intros cost used lst' H. unfold consume_from_list in H.
  destruct (consume_loop lst q 0 []) as [[l c] u] eqn:E.
  injection H as <- <- <-.
  destruct (consume_loop_spec _ _ _ _ _ _ _ E) as (new & -> & Hc & Hl & Ha).
  cbn [app]. conjs; [rewrite Hc; ring | exact Hl | exact Ha].
Qed.

(** 30-day step: the entries added, their cost, and what is left. *)
Lemma thirty_loop_spec (thirty : list FutureAcq) :
  forall ql ct mu fa ql' ct' mu' fa',
  thirty_loop thirty ql ct mu fa = (ql', ct', mu', fa') ->
  exists new, mu' = mu ++ new /\
    ct' == ct + hmrc_entries_cost new /\
    ql' == ql - hmrc_taken new /\
    (0 <= ql -> 0 <= ql') /\
    Forall (fun x => exists adt aqty cper ts, In (adt, aqty, cper, ts) thirty /\
              x = FromAcq30 ts (take_qty x) cper) new.
Proof.
  induction thirty as [|[[[adt aqty] cper] ts] rest IH];
    intros ql ct mu fa ql' ct' mu' fa' H; cbn in H.
  - injection H as <- <- <- <-. exists []. rewrite app_nil_r.
    rewrite hmrc_entries_cost_nil, hmrc_taken_nil.
    conjs; [reflexivity | ring | ring | intro; lra | constructor].
  - destruct (Qle_bool ql eps) eqn:Hq.
    + injection H as <- <- <- <-. exists []. rewrite app_nil_r.
      rewrite hmrc_entries_cost_nil, hmrc_taken_nil.
      conjs; [reflexivity | ring | ring | intro; lra | constructor].
    + destruct (IH _ _ _ _ _ _ _ _ H) as (new & -> & Hc & Hl & Hpos & Hall).
      exists (FromAcq30 ts (Qmin ql aqty) cper :: new).
      rewrite <- app_assoc. split; [reflexivity|].
      change (?x :: new) with ([x] ++ new).
      rewrite hmrc_entries_cost_app, hmrc_taken_app,
        hmrc_entries_cost_one, hmrc_taken_one.
      cbn [hmrc_entry_cost take_qty]. conjs.
      * rewrite Hc. ring.
      * rewrite Hl. ring.
      * intro Hq0. apply Hpos.
        destruct (Qmin_cases ql aqty) as [[_ E]|[L E]]; lra.
      * constructor.
        -- exists adt, aqty, cper, ts. split; [left; reflexivity | reflexivity].
        -- eapply List.Forall_impl; [|exact Hall].
           intros x (a & b & c & d & Hin & Hx). exists a, b, c, d.
           split; [right|]; assumption.
Qed.

Lemma In_thirty_of (dt : Z) (fa : list FutureAcq) (a : FutureAcq) :
  In a (thirty_of dt fa) <-> In a fa /\ eligible dt a = true.
Proof.
  unfold thirty_of. rewrite In_sort_by. apply filter_In.
Qed.

Lemma thirty_day_match_spec (dt : Z) (fa : list FutureAcq) :
  forall ql ct mu ql' ct' mu' fa',
  thirty_day_match dt ql ct mu fa = (ql', ct', mu', fa') ->
  exists new, mu' = mu ++ new /\
    ct' == ct + hmrc_entries_cost new /\
    ql' == ql - hmrc_taken new /\
    (0 <= ql -> 0 <= ql') /\
    Forall (fun x => exists adt aqty cper ts,
              In (adt, aqty, cper, ts) fa /\
              eligible dt (adt, aqty, cper, ts) = true /\
              x = FromAcq30 ts (take_qty x) cper) new.
Proof.
  intros ql ct mu ql' ct' mu' fa' H. unfold thirty_day_match in H.
  destruct (Qlt_bool eps ql).
  - destruct (thirty_loop_spec _ _ _ _ _ _ _ _ _ H)
      as (new & -> & Hc & Hl & Hpos & Hall).
    exists new. conjs; try assumption; try reflexivity.
    eapply List.Forall_impl; [|exact Hall].
    intros x (a & b & c & d & Hin & Hx). exists a, b, c, d.
    apply In_thirty_of in Hin. destruct Hin. auto.
  - injection H as <- <- <- <-. exists []. rewrite app_nil_r.
    rewrite hmrc_entries_cost_nil, hmrc_taken_nil.
    conjs; [reflexivity | ring | ring | intro; lra | constructor].
Qed.

(** Pool step, by cases on its two guards. *)
Lemma pool_match_debit (ql ct pq pc : Q) :
  eps < ql -> eps < pq ->
  pool_match ql ct pq pc
  = (ct + ql * (pc / pq), [FromPool ql (pc / pq)], pq - ql,
     pc - ql * (pc / pq)).
Proof.
  intros H1 H2. unfold pool_match.
  apply Qlt_bool_iff in H1. rewrite H1.
  apply Qle_bool_false in H2. rewrite H2. reflexivity.
Qed.

Lemma pool_match_idle (ql ct pq pc : Q) :
  ql <= eps \/ pq <= eps ->
  exists c, pool_match ql ct pq pc = (c, [], pq, pc) /\ c == ct.
Proof.
  intros H. unfold pool_match.
  destruct (Qlt_bool eps ql) eqn:E1; [|exists ct; split; reflexivity].
  destruct (Qle_bool pq eps) eqn:E2.
  - exists (ct + 0). split; [reflexivity | ring].
  - qtests. destruct H; lra.
Qed.

Lemma pool_match_cost (ql ct pq pc : Q) :
  let '(cost, used, _, _) := pool_match ql ct pq pc in
  cost == ct + hmrc_entries_cost used.
Proof.
  unfold pool_match.
  destruct (Qlt_bool eps ql); [destruct (Qle_bool pq eps)|];
    rewrite ?hmrc_entries_cost_one, ?hmrc_entries_cost_nil;
    cbn [hmrc_entry_cost]; ring.
Qed.

(** The pool step only ever adds an entry of the pool. *)
Lemma pool_match_used (ql ct pq pc : Q) (x : Match) :
  In x (snd (fst (fst (pool_match ql ct pq pc)))) ->
  exists t c, x = FromPool t c.
Proof.
  unfold pool_match.
  destruct (Qlt_bool eps ql); [destruct (Qle_bool pq eps)|];
    cbn [fst snd]; intros H.
  - destruct H.
  - destruct H as [<-|H]; [eauto | destruct H].
  - destruct H.
Qed.

(** The outcome of a disposal. *)
Lemma matching_spec (s : State) (dt : Z) (q : Q) :
  o_qty_left (matching s dt q) == q - hmrc_taken (o_match_used (matching s dt q)) /\
  (0 <= q -> 0 <= o_qty_left (matching s dt q)) /\
  o_cost_total (matching s dt q)
    == hmrc_entries_cost (o_match_used (matching s dt q)
                          ++ o_pool_used (matching s dt q)) /\
  (exists ct pc, pool_match (o_qty_left (matching s dt q)) ct (pool_qty s)
                   (pool_cost_gbp s)
                 = (pc, o_pool_used (matching s dt q),
                    o_pool_qty (matching s dt q),
                    o_pool_cost_gbp (matching s dt q))) /\
  Forall (entry_source s dt) (o_match_used (matching s dt q)).
Proof.
  unfold matching.
  destruct (consume_from_list _ q) as [[sd_cost sd_used] sd_list] eqn:E1.
  destruct (thirty_day_match _ _ _ _ _) as [[[ql ct] mu] fa] eqn:E2.
  destruct (pool_match ql _ _ _) as [[[pc pu] pq] pcg] eqn:E3.
  cbn [o_qty_left o_match_used o_cost_total o_pool_used o_pool_qty
       o_pool_cost_gbp].
  destruct (consume_from_list_spec _ _ _ _ _ E1) as (Hc1 & Hl1 & Ha1).
  destruct (thirty_day_match_spec _ _ _ _ _ _ _ _ _ E2)
    as (new & -> & Hc2 & Hl2 & Hpos2 & Ha2).
  pose proof (pool_match_cost ql ct (pool_qty s) (pool_cost_gbp s)) as Hc3.
  rewrite E3 in Hc3.
  fold (hmrc_taken sd_used) in Hl2.
  conjs.
  - rewrite Hl2, hmrc_taken_app. ring.
  - intro Hq. apply Hpos2. apply Hl1 in Hq. exact Hq.
  - rewrite Hc3, !hmrc_entries_cost_app, Hc2, Hc1. ring.
  - exists ct, pc. exact E3.
  - apply Forall_app. split.
    + eapply List.Forall_impl; [|exact Ha1]. intros x Hx. left. exact Hx.
    + eapply List.Forall_impl; [|exact Ha2]. intros x Hx. right. exact Hx.
Qed.
End HmrcMatching.

(** ** One event of the FIFO engine *)

Section IrsStep.
Variable usd : Z -> Q.

Lemma irs_step_dispose (s : Irs.State) (e : Event) :
  is_xtz e = true -> direction e = DirOut -> 0 < quantity e ->
  Irs.disposals (Irs.step usd s e)
    = Irs.disposals s
      ++ [fst (Irs.dispose e (usd (day_of (timestamp e))) (Irs.xtz_lots s))] /\
  Irs.xtz_lots (Irs.step usd s e)
    = snd (Irs.dispose e (usd (day_of (timestamp e))) (Irs.xtz_lots s)).
Proof.
  intros Hx Hd Hq. unfold Irs.step. rewrite Hx, Hd. cbn [is_in is_out andb].
  apply Qlt_bool_iff in Hq. rewrite Hq.
  unfold Irs.xtz_fmv, iso_to_dt. destruct (Irs.dispose _ _ _) as [d open].
  split; reflexivity.
Qed.

(** Every event leaves the records already written in place. *)
Lemma irs_step_keeps (s : Irs.State) (e : Event) :
  exists more, Irs.disposals (Irs.step usd s e) = Irs.disposals s ++ more.
Proof.
  unfold Irs.step.
  destruct (is_xtz e);
    [destruct (is_in (direction e) && Qlt_bool 0 (quantity e));
     [|destruct (is_out (direction e) && Qlt_bool 0 (quantity e));
       [destruct (Irs.dispose _ _ _)|]]|];
    cbn [Irs.disposals]; eauto; exists []; rewrite app_nil_r; reflexivity.
Qed.

Lemma irs_fold_keeps (events : list Event) :
  forall s d, In d (Irs.disposals s) ->
  In d (Irs.disposals (fold_left (Irs.step usd) events s)).
Proof.
  induction events as [|e r IH]; intros s d Hd; cbn [fold_left]; [exact Hd|].
  apply IH. destruct (irs_step_keeps s e) as [more ->].
  apply in_or_app. left. exact Hd.
Qed.

Lemma irs_fold_disposes (e : Event) (events : list Event) :
  is_xtz e = true -> direction e = DirOut -> 0 < quantity e ->
  In e events ->
  forall s, exists lots,
    In (fst (Irs.dispose e (usd (day_of (timestamp e))) lots))
       (Irs.disposals (fold_left (Irs.step usd) events s)).
Proof.
  intros Hx Hd Hq.
  induction events as [|e' r IH]; intros Hin s; [destruct Hin|].
  cbn [fold_left]. destruct Hin as [->|Hin]; [|apply IH; exact Hin].
  exists (Irs.xtz_lots s). apply irs_fold_keeps.
  destruct (irs_step_dispose s e Hx Hd Hq) as [-> _].
  apply in_or_app. right. left. reflexivity.
Qed.
End IrsStep.

(** ** One event of the HMRC engine *)

Section HmrcStep.
Variable gbp : Z -> Q.

Lemma hmrc_step_dispose (s : Hmrc.State) (e : Event) :
  direction e = DirOut ->
  Hmrc.step gbp s e =
    let o := Hmrc.matching s (timestamp e) (quantity e) in
    {| Hmrc.acq_by_day := Hmrc.o_acq_by_day o;
       Hmrc.future_acqs := Hmrc.o_future_acqs o;
       Hmrc.pool_qty := Hmrc.o_pool_qty o;
       Hmrc.pool_cost_gbp := Hmrc.o_pool_cost_gbp o;
       Hmrc.disposals := Hmrc.disposals s ++ [hmrc_record gbp s e] |}.
Proof.
  intro Hd. unfold Hmrc.step. rewrite Hd. reflexivity.
Qed.

Lemma hmrc_step_keeps (s : Hmrc.State) (e : Event) :
  exists more, Hmrc.disposals (Hmrc.step gbp s e) = Hmrc.disposals s ++ more.
Proof.
  unfold Hmrc.step. destruct (is_in (direction e)); cbn [Hmrc.disposals].
  - exists []. rewrite app_nil_r. reflexivity.
  - eauto.
Qed.

Lemma hmrc_fold_keeps (events : list Event) :
  forall s d, In d (Hmrc.disposals s) ->
  In d (Hmrc.disposals (fold_left (Hmrc.step gbp) events s)).
Proof.
  induction events as [|e r IH]; intros s d Hd; cbn [fold_left]; [exact Hd|].
  apply IH. destruct (hmrc_step_keeps s e) as [more ->].
  apply in_or_app. left. exact Hd.
Qed.

Lemma hmrc_fold_disposes (e : Event) (events : list Event) :
  direction e = DirOut -> In e events ->
  forall s, exists s',
    In (hmrc_record gbp s' e)
       (Hmrc.disposals (fold_left (Hmrc.step gbp) events s)).
Proof.
  intros Hd.
  induction events as [|e' r IH]; intros Hin s; [destruct Hin|].
  cbn [fold_left]. destruct Hin as [->|Hin]; [|apply IH; exact Hin].
  exists s. apply hmrc_fold_keeps.
  rewrite (hmrc_step_dispose s e Hd). cbn [Hmrc.disposals].
  apply in_or_app. right. left. reflexivity.
Qed.
End HmrcStep.

(** ** Binary64 facts *)

(** A float less itself is [0.0], or not a number when the float is not
    finite. *)
Lemma b64_sub_self (x : spec_float) :
  B64.sub x x = B64.zero \/ B64.sub x x = S754_nan.
Proof.
  destruct x as [[]|[]| |s m e]; cbn; auto.
  left. unfold B64.sub, SFsub. rewrite Z.sub_diag. reflexivity.
Qed.

(** Neither is above the tolerance. *)
Lemma b64_sub_self_small (x : spec_float) :
  B64.ltb B64.eps (B64.sub x x) = false.
Proof.
  destruct (b64_sub_self x) as [-> | ->]; reflexivity.
Qed.

Lemma b64_ltb_nan (x : spec_float) : B64.ltb S754_nan x = false.
Proof. reflexivity. Qed.

(** [0 + x - x], as [qty - sum([qty])] computes it, is not above the
    tolerance either. *)
Lemma b64_sub_sum_one (x : spec_float) :
  B64.ltb B64.eps (B64.sub x (B64.add B64.zero x)) = false.
Proof.
  destruct x as [[]|[]| |s m e]; try reflexivity.
  change (B64.add B64.zero (S754_finite s m e)) with (S754_finite s m e).
  apply b64_sub_self_small.
Qed.

(** ** The FIFO loop in binary64 *)

Lemma while_fuel_step {S : Type} (guard : S -> bool) (body : S -> S)
    (fuel : nat) (s : S) :
  while_fuel guard body (Datatypes.S fuel) s
  = if guard s then while_fuel guard body fuel (body s) else Some s.
Proof. reflexivity. Qed.

Lemma while_fuel_done {S : Type} (guard : S -> bool) (body : S -> S)
    (fuel : nat) (s : S) :
  guard s = false -> while_fuel guard body fuel s = Some s.
Proof. intro G. destruct fuel; cbn [while_fuel]; rewrite G; reflexivity. Qed.

Section Fifo64.
Import Irs64.

Lemma loop64_body_cons (q : spec_float) (lot : Lot) (rest : list Lot)
    (b : spec_float) (ds : list LotDetail) :
  loop_body {| qty_to_dispose := q; lots := lot :: rest; basis := b;
               lot_details := ds |}
  = let take := B64.min q (qty lot) in
    let lot' := {| acquired_ts := acquired_ts lot;
                   qty := B64.sub (qty lot) take;
                   basis_per := basis_per lot |} in
    {| qty_to_dispose := B64.sub q take;
       lots := if B64.leb (qty lot') B64.eps then rest else lot' :: rest;
       basis := B64.add b (B64.mul take (basis_per lot));
       lot_details := ds ++
         [{| from_lot_acquired_ts := acquired_ts lot; take_qty := take;
             basis_per_usd := basis_per lot |}] |}.
Proof. reflexivity. Qed.

(** One iteration drops the head lot, or ends the loop, or leaves a
    state from which the next iteration ends it. *)
Lemma loop64_progress (s : Loop) :
  loop_guard s = true ->
  (length (lots (loop_body s)) < length (lots s))%nat
  \/ loop_guard (loop_body s) = false
  \/ loop_guard (loop_body (loop_body s)) = false.
Proof.
  unfold loop_guard at 1. intro G. apply andb_true_iff in G.
  destruct G as [_ G].
  destruct s as [q ls b ds]. cbn [lots] in G.
  destruct ls as [|lot rest]; [discriminate|]. clear G.
  rewrite loop64_body_cons. cbv zeta. cbn [qty].
  unfold B64.min.
  destruct (B64.ltb (qty lot) q) eqn:L.
  - destruct (b64_sub_self (qty lot)) as [E|E]; rewrite E.
    + left. change (B64.leb B64.zero B64.eps) with true. cbn [lots length]. lia.
    + right. right.
      change (B64.leb S754_nan B64.eps) with false. cbv iota.
      rewrite loop64_body_cons. cbv zeta. cbn [qty].
      unfold B64.min, loop_guard. cbn [qty_to_dispose].
      rewrite b64_ltb_nan, b64_sub_self_small. reflexivity.
  - right. left. unfold loop_guard. cbn [qty_to_dispose].
    rewrite b64_sub_self_small. reflexivity.
Qed.

Lemma loop64_terminates_from :
  forall n s, (length (lots s) <= n)%nat ->
  exists r, while_fuel loop_guard loop_body (S n) s = Some r.
Proof.
  induction n as [|n IH]; intros s Hn; rewrite while_fuel_step;
    destruct (loop_guard s) eqn:G; eauto.
  - exfalso. unfold loop_guard in G. apply andb_true_iff in G.
    destruct G as [_ G]. destruct (lots s); [discriminate|cbn in Hn; lia].
  - destruct (loop64_progress s G) as [H|[H|H]].
    + apply IH. lia.
    + exists (loop_body s). apply while_fuel_done. exact H.
    + rewrite while_fuel_step.
      destruct (loop_guard (loop_body s)); [|eauto].
      exists (loop_body (loop_body s)). apply while_fuel_done. exact H.
Qed.

(** The loop ends within the bound [fifo_loop] gives it, whatever the
    floats. *)
Lemma fifo64_loop_terminates (q : spec_float) (open : list Lot) :
  fifo_loop q open = Some (fifo_consume q open).
Proof.
  unfold fifo_consume.
  destruct (loop64_terminates_from (length open) (loop_start q open))
    as [r Hr]; [reflexivity|].
  unfold fifo_loop. rewrite Hr. reflexivity.
Qed.

Lemma fifo64_invariant (P : Loop -> Prop) (q : spec_float) (open : list Lot) :
  P (loop_start q open) ->
  (forall s, P s -> loop_guard s = true -> P (loop_body s)) ->
  P (fifo_consume q open) /\ loop_guard (fifo_consume q open) = false.
Proof.
  intros H0 Hstep.
  eapply while_fuel_invariant; [exact Hstep | exact H0 |].
  apply fifo64_loop_terminates.
Qed.

(** The loop variable [qty_to_dispose] is the disposed quantity less the
    takes of the entries, subtracted one after the other. *)
Lemma fifo64_running_residual (q : spec_float) (open : list Lot) :
  qty_to_dispose (fifo_consume q open)
  = fold_left B64.sub (map take_qty (lot_details (fifo_consume q open))) q.
Proof.
  apply (fifo64_invariant
           (fun s => qty_to_dispose s
                     = fold_left B64.sub (map take_qty (lot_details s)) q)).
  - reflexivity.
  - intros s I G. unfold loop_guard in G. apply andb_true_iff in G.
    destruct G as [_ G]. unfold loop_body.
    destruct (lots s) as [|lot rest]; [discriminate|].
    cbn [qty_to_dispose lot_details].
    rewrite map_app, fold_left_app. cbn [map fold_left take_qty].
    rewrite <- I. reflexivity.
Qed.

(** More than the tolerance is left only when the queue is empty. *)
Lemma fifo64_exit (q : spec_float) (open : list Lot) :
  B64.ltb B64.eps (qty_to_dispose (fifo_consume q open)) = true ->
  lots (fifo_consume q open) = [].
Proof.
  intro H.
  destruct (fifo64_invariant (fun _ => True) q open) as [_ G]; auto.
  unfold loop_guard in G. rewrite H in G.
  destruct (lots _); [reflexivity|discriminate].
Qed.

End Fifo64.

(** ** The matching steps of the HMRC engine in binary64 *)

Section Matching64.
Import Hmrc64.

Lemma consume64_loop_spec (lst : list Acq) :
  forall q c u lst' c' u',
  consume_loop lst q c u = (lst', c', u') ->
  exists new, u' = u ++ new /\ Forall is_same_day new.
Proof.
  induction lst as [|rec rest IH]; intros q c u lst' c' u' H;
    cbn [consume_loop] in H.
  - injection H as _ _ <-. exists []. rewrite app_nil_r. auto.
  - destruct (B64.ltb B64.eps q).
    + cbn [qty] in H.
      destruct (B64.leb _ B64.eps).
      * destruct (consume_loop rest _ _ _) as [[r2 c2] u2] eqn:E.
        injection H as _ _ <-.
        destruct (IH _ _ _ _ _ _ E) as (new & -> & Hn).
        eexists. rewrite <- app_assoc. split; [reflexivity|].
        constructor; [exact I | exact Hn].
      * injection H as _ _ <-. eexists. split; [reflexivity|].
        constructor; [exact I | constructor].
    + injection H as _ _ <-. exists []. rewrite app_nil_r. auto.
Qed.

Lemma thirty64_loop_spec (thirty : list FutureAcq) :
  forall ql ct mu fa ql' ct' mu' fa',
  thirty_loop thirty ql ct mu fa = (ql', ct', mu', fa') ->
  exists new, mu' = mu ++ new /\ Forall is_thirty_day new /\
    ql' = running_residual ql (map take_qty new).
Proof.
  induction thirty as [|[[[adt aqty] cper] ts] rest IH];
    intros ql ct mu fa ql' ct' mu' fa' H; cbn [thirty_loop] in H.
  - injection H as <- _ <- _. exists []. rewrite app_nil_r. auto.
  - destruct (B64.leb ql B64.eps).
    + injection H as <- _ <- _. exists []. rewrite app_nil_r. auto.
    + destruct (IH _ _ _ _ _ _ _ _ H) as (new & -> & Hn & ->).
      eexists. rewrite <- app_assoc. split; [reflexivity|].
      split; [constructor; [exact I | exact Hn] | reflexivity].
Qed.

(** What the three steps leave of a disposal, and what the pool step
    writes. *)
Lemma matching64_spec (py_sum : list spec_float -> spec_float) (s : State)
    (dt : Z) (q : spec_float) :
  let o := matching py_sum s dt q in
  exists same thirty,
    o_match_used o = same ++ thirty /\
    Forall is_same_day same /\ Forall is_thirty_day thirty /\
    o_qty_left o
    = running_residual (B64.sub q (py_sum (map take_qty same)))
        (map take_qty thirty) /\
    o_pool_used o
    = if B64.ltb B64.eps (o_qty_left o) && negb (B64.leb (pool_qty s) B64.eps)
      then [FromPool (o_qty_left o) (B64.div (pool_cost_gbp s) (pool_qty s))]
      else [].
Proof.
  unfold matching, consume_from_list.
  destruct (consume_loop _ q B64.zero []) as [[l c] u] eqn:E1.
  destruct (consume64_loop_spec _ _ _ _ _ _ _ E1) as (same & -> & Hs).
  cbn [app].
  destruct (thirty_day_match _ _ _ _ _) as [[[ql ct] mu] fa] eqn:E2.
  assert (H2 : exists thirty, mu = same ++ thirty /\ Forall is_thirty_day thirty /\
             ql = running_residual (B64.sub q (py_sum (map take_qty same)))
                    (map take_qty thirty)).
  { unfold thirty_day_match in E2. destruct (B64.ltb B64.eps _).
    - apply thirty64_loop_spec in E2. exact E2.
    - injection E2 as <- _ <- _. exists []. rewrite app_nil_r. auto. }
  destruct H2 as (thirty & -> & Ht & ->).
  unfold pool_match.
  destruct (B64.ltb B64.eps _) eqn:G1; [destruct (B64.leb _ B64.eps) eqn:G2|];
    cbv zeta; cbn [o_match_used o_qty_left o_pool_used];
    exists same, thirty; rewrite ?G1, ?G2; cbn [andb negb]; auto.
Qed.

(** A disposal above the tolerance that the first record of its day
    covers: the same-day step takes it whole from that record. *)
Lemma consume64_head_covers (rec : Acq) (rest : list Acq) (q : spec_float) :
  B64.ltb B64.eps q = true -> B64.ltb (qty rec) q = false ->
  fst (consume_from_list (rec :: rest) q)
  = (B64.add B64.zero (B64.mul q (cost_per rec)),
     [FromAcq (ts rec) q (cost_per rec)]).
Proof.
  intros Hq Hcov. unfold consume_from_list. cbn [consume_loop].
  rewrite Hq. unfold B64.min. rewrite Hcov. cbn [qty app].
  destruct (B64.leb _ B64.eps); [|reflexivity].
  destruct rest as [|r2 rest]; cbn [consume_loop]; [reflexivity|].
  rewrite b64_sub_self_small. reflexivity.
Qed.

(** Then that entry is the whole breakdown, and neither [future_acqs]
    nor the pool is touched. *)
Lemma matching64_same_day_covers (py_sum : list spec_float -> spec_float)
    (s : State) (dt : Z) (q : spec_float) (rec : Acq) (rest : list Acq) :
  (forall x, py_sum [x] = B64.add B64.zero x) ->
  default [] (acq_by_day s !! day_of dt) = rec :: rest ->
  B64.ltb B64.eps q = true ->
  B64.ltb (qty rec) q = false ->
  let o := matching py_sum s dt q in
  o_match_used o = [FromAcq (ts rec) q (cost_per rec)] /\
  o_pool_used o = [] /\
  o_cost_total o = B64.add B64.zero (B64.mul q (cost_per rec)) /\
  o_future_acqs o = future_acqs s /\
  o_pool_qty o = pool_qty s /\
  o_pool_cost_gbp o = pool_cost_gbp s.
Proof.
  intros Hsum Hb Hq Hcov.
  unfold matching. rewrite Hb.
  pose proof (consume64_head_covers rec rest q Hq Hcov) as Hc.
  destruct (consume_from_list (rec :: rest) q) as [[c u] l].
  cbn [fst] in Hc. injection Hc as -> ->.
  cbn [map take_qty]. rewrite Hsum.
  unfold thirty_day_match. rewrite b64_sub_sum_one.
  unfold pool_match. rewrite b64_sub_sum_one.
  repeat split.
Qed.

End Matching64.

(** A disposal above the tolerance that the head lot covers: one
    iteration takes it whole from that lot. *)
Lemma fifo64_head_covers (q : spec_float) (lot : Irs64.Lot)
    (rest : list Irs64.Lot) :
  B64.ltb B64.eps q = true -> B64.ltb (Irs64.qty lot) q = false ->
  Irs64.lot_details (Irs64.fifo_consume q (lot :: rest))
  = [{| Irs64.from_lot_acquired_ts := Irs64.acquired_ts lot;
        Irs64.take_qty := q;
        Irs64.basis_per_usd := Irs64.basis_per lot |}].
Proof.
  intros Hq Hcov. unfold Irs64.fifo_consume, Irs64.fifo_loop.
  cbn [length]. rewrite while_fuel_step.
  unfold Irs64.loop_guard at 1. cbn [Irs64.loop_start Irs64.qty_to_dispose Irs64.lots].
  rewrite Hq. cbn [andb]. unfold Irs64.loop_start.
  rewrite loop64_body_cons. cbv zeta. unfold B64.min. rewrite Hcov.
  rewrite while_fuel_done; [reflexivity|].
  unfold Irs64.loop_guard. cbn [Irs64.qty_to_dispose].
  rewrite b64_sub_self_small. reflexivity.
Qed.


(* ================================================================= *)
(** * The FIFO engine: proceeds and lot order *)




(* ================================================================= *)
(** * The HMRC engine: what the day buckets and [future_acqs] share *)

(** C1. The day bucket and [future_acqs] hold separate copies of an
    acquisition's quantity, and each rule writes to its own copy only.
    With a disposal on day 1, an acquisition of 5 units on day 10 and a
    second disposal later on day 10, the first disposal takes the 5
    units under the 30-day rule and the second takes the same 5 units
    under the same-day rule: 10 units are matched against an
    acquisition of 5. *)
Theorem acquisition_matched_twice :
  let ds := Hmrc.hmrc_pooling_disposals (flat_price 2) twice_matched_events in
  map Hmrc.matching_breakdown_json ds
    = [[Hmrc.FromAcq30 (noon 10) 5 2]; [Hmrc.FromAcq (noon 10) 5 2]] /\
  matched_against (noon 10) ds == 10 /\
  map quantity (List.filter (fun e => is_in (direction e)) twice_matched_events)
    = [5].
Proof.
  vm_compute. repeat split.
Qed.

(** C2. The pool step debits the whole residual whenever the pool holds
    more than the tolerance, also when the residual exceeds the pool:
    after acquiring 1 unit at price 2 and disposing of 2 units two days
    later the pool holds -1 units at a cost of -2. *)
Theorem pool_overdrawn :
  let s := Hmrc.run (flat_price 2) overdrawn_events in
  Hmrc.pool_qty s == -1 /\ Hmrc.pool_cost_gbp s == -2 /\
  map Hmrc.matching_breakdown_json (Hmrc.disposals s)
    = [[Hmrc.FromPool 2 2]].
Proof.
  vm_compute. repeat split.
Qed.

(* ================================================================= *)
(** * Breakdowns and over-disposal *)

(** Closes a goal between closed rationals by evaluation. *)
Ltac qeval := vm_compute; first [reflexivity | discriminate | intro; discriminate].

(** C3, amended.  The entries of a breakdown exhaust the disposal in the
    running subtraction of the engine, not in their sum.  In the FIFO
    engine the loop always ends; what it leaves of the disposal is the
    disposed quantity less the take of each entry in turn, each
    subtraction rounded, and more than [1e-12] is left only when the
    queue is empty; a disposal that the head lot covers has one entry,
    which takes exactly the disposed quantity.  In the HMRC engine the
    breakdown holds the same-day entries, then the 30-day entries, and
    the residual is the disposed quantity less the sum of the same-day
    takes, less each 30-day take in turn; a pool entry is written only
    when that residual and the pool are both above [1e-12], and takes
    exactly that residual; no entry stands for a shortfall; a disposal
    that the first record of the bucket of its day covers has one
    entry, which takes exactly the disposed quantity. *)
Theorem breakdown_follows_running_residual :
  (forall (q : spec_float) (open : list Irs64.Lot),
     exists r,
       Irs64.fifo_loop q open = Some r /\
       Irs64.qty_to_dispose r
       = running_residual q (map Irs64.take_qty (Irs64.lot_details r)) /\
       (B64.ltb B64.eps (Irs64.qty_to_dispose r) = true -> Irs64.lots r = [])) /\
  (forall (q : spec_float) (lot : Irs64.Lot) (rest : list Irs64.Lot),
     B64.ltb B64.eps q = true -> B64.ltb (Irs64.qty lot) q = false ->
     map Irs64.take_qty (Irs64.lot_details (Irs64.fifo_consume q (lot :: rest)))
     = [q]) /\
  (forall (py_sum : list spec_float -> spec_float) (s : Hmrc64.State)
          (dt : Z) (q : spec_float),
     let o := Hmrc64.matching py_sum s dt q in
     exists same thirty,
       Hmrc64.o_match_used o = same ++ thirty /\
       Forall is_same_day same /\ Forall is_thirty_day thirty /\
       Hmrc64.o_qty_left o
       = running_residual
           (B64.sub q (py_sum (map Hmrc64.take_qty same)))
           (map Hmrc64.take_qty thirty) /\
       Hmrc64.o_pool_used o
       = if B64.ltb B64.eps (Hmrc64.o_qty_left o)
            && negb (B64.leb (Hmrc64.pool_qty s) B64.eps)
         then [Hmrc64.FromPool (Hmrc64.o_qty_left o)
                 (B64.div (Hmrc64.pool_cost_gbp s) (Hmrc64.pool_qty s))]
         else []) /\
  (forall (py_sum : list spec_float -> spec_float) (s : Hmrc64.State)
          (dt : Z) (q : spec_float) (rec : Hmrc64.Acq)
          (rest : list Hmrc64.Acq),
     (forall x, py_sum [x] = B64.add B64.zero x) ->
     default [] (Hmrc64.acq_by_day s !! day_of dt) = rec :: rest ->
     B64.ltb B64.eps q = true -> B64.ltb (Hmrc64.qty rec) q = false ->
     let o := Hmrc64.matching py_sum s dt q in
     map Hmrc64.take_qty (Hmrc64.o_match_used o ++ Hmrc64.o_pool_used o)
     = [q]).
Proof.
  split; [|split; [|split]].
  - intros q open. exists (Irs64.fifo_consume q open).
    split; [apply fifo64_loop_terminates|].
    split; [apply fifo64_running_residual | apply fifo64_exit].
  - intros q lot rest Hq Hcov.
    rewrite (fifo64_head_covers q lot rest Hq Hcov). reflexivity.
  - intros py_sum s dt q. apply matching64_spec.
  - intros py_sum s dt q rec rest Hsum Hb Hq Hcov.
    destruct (matching64_same_day_covers py_sum s dt q rec rest Hsum Hb Hq Hcov)
      as (Hu & Hp & _).
    cbv zeta. rewrite Hu, Hp. reflexivity.
Qed.

(** The theorem at a disposal of 3 tez against a head lot of 10 tez, and
    against 10 tez acquired a minute earlier on the same day. *)
Lemma breakdown_follows_running_residual_witness :
  map Irs64.take_qty
    (Irs64.lot_details
       (Irs64.fifo_consume (B64.of_Z 3) [lot64 (noon 1) 10000000]))
  = [B64.of_Z 3] /\
  (let o := Hmrc64.matching B64.sum same_day_state64 (noon 4) (B64.of_Z 3) in
   map Hmrc64.take_qty (Hmrc64.o_match_used o ++ Hmrc64.o_pool_used o)
   = [B64.of_Z 3]).
Proof.
  split.
  - apply (proj1 (proj2 breakdown_follows_running_residual)); reflexivity.
  - apply (proj2 (proj2 (proj2 breakdown_follows_running_residual)) B64.sum
             same_day_state64 (noon 4) (B64.of_Z 3)
             (acq64 (noon 4 - 60) 10000000) []); reflexivity.
Defined.

(** C3 as stated fails, and so does its restriction to disposals that
    the supply covers.  A FIFO disposal of 5 units with no open lot has
    an empty breakdown.  With open lots of 1728.323273 and 28381.497771
    tez, a disposal of 28246.865341 tez is matched in full (the loop
    leaves [0.0] and the second lot stays open), yet its two takes add
    up to [2^-39], about [1.8e-12], more than the disposed quantity;
    summed and compared in floats they differ from it by more than
    [1e-12] as well. *)
Lemma breakdown_misses_disposed_quantity :
  (exists d,
     snd (Irs.classify_irs (flat_price 3) short_events) = [d] /\
     Irs.qty_disposed d = 5 /\ Irs.lot_breakdown_json d = []) /\
  (let r := Irs64.fifo_consume rounding_disposal rounding_lots in
   let takes := map Irs64.take_qty (Irs64.lot_details r) in
   Irs64.qty_to_dispose r = B64.zero /\
   length (Irs64.lots r) = 1%nat /\
   length takes = 2%nat /\
   py_sum (map B64.to_Q takes) - B64.to_Q rounding_disposal
     == 1 # 549755813888 /\
   eps64 < 1 # 549755813888 /\ eps < 1 # 549755813888 /\
   B64.ltb B64.eps (B64.sub (B64.sum takes) rounding_disposal) = true).
Proof.
  split.
  - eexists. split; [vm_compute; reflexivity|]. split; reflexivity.
  - vm_compute. repeat split.
Qed.


(** ** Over-disposal *)






(* ================================================================= *)
(** * Ordering of the input *)

(** C5, amended. No engine checks that its events come in ascending
    order of timestamp, and none rejects a run.  The HMRC engine
    sorts the events it keeps, stably, before matching, so that a run on
    any sequence is the run on that sequence sorted; [build_events]
    returns its events sorted; the FIFO engine takes the events in the
    order given. *)
Theorem input_order_is_not_checked :
  (forall (gbp : Z -> Q) (events : list Event),
     Hmrc.hmrc_pooling_disposals gbp events
     = Hmrc.hmrc_pooling_disposals gbp (sort_by timestamp events)) /\
  (forall (address : string) (xtz_ops : list XtzOp)
          (tok_ops : list TokenTransferOp),
     ascending (build_events address xtz_ops tok_ops)) /\
  (forall (usd : Z -> Q) (events : list Event) (e : Event),
     Irs.run usd (events ++ [e]) = Irs.step usd (Irs.run usd events) e).
Proof.
  conjs.
  - intros gbp events.
    unfold Hmrc.hmrc_pooling_disposals, Hmrc.run, Hmrc.xtz_events_of.
    rewrite filter_sort_by.
    rewrite (sort_by_fixed timestamp (sort_by timestamp _))
      by apply sort_by_sorted.
    reflexivity.
  - intros address xtz_ops tok_ops. apply sort_by_sorted.
  - intros usd events e. unfold Irs.run. rewrite fold_left_app. reflexivity.
Qed.

(** C5 as stated fails: the scenario with its two events swapped is not
    in ascending order, yet the HMRC engine returns the record it returns
    for the sorted scenario, and the FIFO engine returns a record whose
    basis is 0 because the disposal came first. *)
Lemma unsorted_run_accepted :
  ~ ascending unsorted_events /\
  Hmrc.hmrc_pooling_disposals scenario_price unsorted_events
    = Hmrc.hmrc_pooling_disposals scenario_price scenario_events /\
  map Hmrc.matching_breakdown_json
      (Hmrc.hmrc_pooling_disposals scenario_price unsorted_events)
    = [[Hmrc.FromPool 4 (20 # 10)]] /\
  map Irs.basis_usd_fifo_est (snd (Irs.classify_irs scenario_price unsorted_events))
    = [0].
Proof.
  conjs.
  - intro H. inversion H as [|? ? _ F]. inversion F as [|? ? L _].
    vm_compute in L. apply L. reflexivity.
  - vm_compute. reflexivity.
  - vm_compute. reflexivity.
  - vm_compute. reflexivity.
Qed.

(* ================================================================= *)
(** * The price oracle *)

(** C6, amended. When the document fetched for a day holds no usable
    price, [xtz_price_on_date] returns 0 and stores 0 for that day, so
    that every later lookup of the day returns 0 without a request; no
    error is raised.  Only a request that itself fails ends the lookup
    with an error. *)
Theorem missing_price_becomes_zero (http : Z -> HttpAnswer) (o : PriceOracle)
    (date : Z) :
  cache o !! date = None ->
  (http date = HttpJson None ->
   exists o',
     xtz_price_on_date http o date = Some (0, o') /\
     cache o' !! date = Some 0 /\
     forall http', xtz_price_on_date http' o' date = Some (0, o')) /\
  (http date = HttpFailure -> xtz_price_on_date http o date = None).
Proof.
  intro Hmiss. unfold xtz_price_on_date. rewrite Hmiss. split; intros ->.
  - eexists. split; [reflexivity|]. cbn [cache].
    split; [apply lookup_insert_eq|].
    intro http'. rewrite lookup_insert_eq. reflexivity.
  - reflexivity.
Qed.

(** The theorem at an oracle with an empty cache. *)
Lemma missing_price_becomes_zero_witness :
  exists o',
    xtz_price_on_date no_price_http fresh_oracle 20089 = Some (0, o') /\
    cache o' !! 20089%Z = Some 0.
Proof.
  destruct (proj1 (missing_price_becomes_zero no_price_http fresh_oracle 20089
                     eq_refl) eq_refl) as (o' & H1 & H2 & _).
  exists o'. split; [exact H1 | exact H2].
Defined.

(** C6 as stated fails: with no price in the document the lookup answers
    with the price 0 instead of an error. *)
Lemma missing_price_is_not_an_error :
  option_map fst (xtz_price_on_date no_price_http fresh_oracle 20089) = Some 0.
Proof. reflexivity. Qed.

(* ================================================================= *)
(** * The pool *)

(** C7. In the chronological pass an acquisition adds its quantity and
    its cost to the pool whatever the day buckets and [future_acqs]
    hold, and touches nothing else.  A disposal debits the pool only by
    what is left of its quantity after the same-day and 30-day entries,
    at the average cost [pool_cost_gbp / pool_qty] the pool has at that
    point; when nothing is left, or the pool holds at most [eps], the
    pool is not touched. *)
Theorem pool_credit_and_residual_debit :
  (forall (gbp : Z -> Q) (s : Hmrc.State) (e : Event),
     direction e = DirIn ->
     Hmrc.pool_qty (Hmrc.step gbp s e) = Hmrc.pool_qty s + quantity e /\
     Hmrc.pool_cost_gbp (Hmrc.step gbp s e)
       = Hmrc.pool_cost_gbp s + quantity e * gbp (day_of (timestamp e)) /\
     Hmrc.acq_by_day (Hmrc.step gbp s e) = Hmrc.acq_by_day s /\
     Hmrc.future_acqs (Hmrc.step gbp s e) = Hmrc.future_acqs s /\
     Hmrc.disposals (Hmrc.step gbp s e) = Hmrc.disposals s) /\
  (forall (gbp : Z -> Q) (s : Hmrc.State) (e : Event),
     direction e = DirOut ->
     let o := Hmrc.matching s (timestamp e) (quantity e) in
     let r := Hmrc.o_qty_left o in
     let avg := Hmrc.pool_cost_gbp s / Hmrc.pool_qty s in
     r == quantity e - hmrc_taken (Hmrc.o_match_used o) /\
     Forall (entry_source s (timestamp e)) (Hmrc.o_match_used o) /\
     (eps < r -> eps < Hmrc.pool_qty s ->
      Hmrc.pool_qty (Hmrc.step gbp s e) = Hmrc.pool_qty s - r /\
      Hmrc.pool_cost_gbp (Hmrc.step gbp s e) = Hmrc.pool_cost_gbp s - r * avg /\
      Hmrc.o_pool_used o = [Hmrc.FromPool r avg]) /\
     (r <= eps \/ Hmrc.pool_qty s <= eps ->
      Hmrc.pool_qty (Hmrc.step gbp s e) = Hmrc.pool_qty s /\
      Hmrc.pool_cost_gbp (Hmrc.step gbp s e) = Hmrc.pool_cost_gbp s /\
      Hmrc.o_pool_used o = [])).
Proof.
  split.
  - intros gbp s e Hd. unfold Hmrc.step. rewrite Hd. cbn. conjs; reflexivity.
  - intros gbp s e Hd o r avg.
    rewrite (hmrc_step_dispose gbp s e Hd).
    cbn [Hmrc.pool_qty Hmrc.pool_cost_gbp]. fold o.
    destruct (matching_spec s (timestamp e) (quantity e))
      as (Hl & _ & _ & (ct & pc & Hp) & Hsrc).
    fold o in Hl, Hp, Hsrc. fold r in Hl, Hp. conjs.
    + exact Hl.
    + exact Hsrc.
    + intros H1 H2. rewrite (pool_match_debit _ _ _ _ H1 H2) in Hp.
      injection Hp as _ Hu Hq Hc. fold avg in Hu, Hc. auto.
    + intros H.
      destruct (pool_match_idle r ct (Hmrc.pool_qty s) (Hmrc.pool_cost_gbp s) H)
        as (c & Hi & _).
      rewrite Hi in Hp.
      injection Hp as _ Hu Hq Hc. auto.
Qed.

(** The theorem at an acquisition of 3 and at a disposal of 4, both
    against a pool of 10 units that cost 20. *)
Lemma pool_credit_and_residual_debit_witness :
  Hmrc.pool_qty (Hmrc.step (flat_price 2) pooled_state (xtz (noon 3) DirIn 3))
    = 10 + 3 /\
  Hmrc.pool_qty (Hmrc.step (flat_price 2) pooled_state (xtz (noon 3) DirOut 4))
    = 10 - Hmrc.o_qty_left (Hmrc.matching pooled_state (noon 3) 4).
Proof.
  split.
  - exact (proj1 (proj1 pool_credit_and_residual_debit (flat_price 2)
                    pooled_state (xtz (noon 3) DirIn 3) eq_refl)).
  - destruct (proj2 pool_credit_and_residual_debit (flat_price 2)
                pooled_state (xtz (noon 3) DirOut 4) eq_refl)
      as (_ & _ & Hdebit & _).
    exact (proj1 (Hdebit eq_refl eq_refl)).
Defined.

(* ================================================================= *)
(** * The 30-day window *)

Lemma eligible_iff (dt adt : Z) (aqty cper : Q) (ts : Z) :
  Hmrc.eligible dt (adt, aqty, cper, ts) = true
  <-> (dt < adt)%Z /\ (adt < dt + 31 * 86400)%Z /\ eps < aqty.
Proof.
  unfold Hmrc.eligible, timedelta_days.
  rewrite !andb_true_iff, Z.ltb_lt, Z.leb_le, Qlt_bool_iff.
  assert ((adt - dt) / 86400 <= 30 <-> adt < dt + 31 * 86400)%Z.
  { split; intro H.
    - destruct (Z_lt_le_dec adt (dt + 31 * 86400)) as [L|L]; [exact L|].
      assert (31 <= (adt - dt) / 86400)%Z
        by (apply Z.div_le_lower_bound; lia).
      lia.
    - assert ((adt - dt) / 86400 < 31)%Z
        by (apply Z.div_lt_upper_bound; lia).
      lia. }
  tauto.
Qed.

(** A 30-day entry comes from an entry of [future_acqs] inside the
    window. *)
Lemma thirty_entry_source (s : Hmrc.State) (dt : Z) (q : Q) (ts : Z) (t c : Q) :
  In (Hmrc.FromAcq30 ts t c) (Hmrc.o_match_used (Hmrc.matching s dt q)) ->
  exists adt aqty,
    In (adt, aqty, c, ts) (Hmrc.future_acqs s) /\
    (dt < adt)%Z /\ (adt < dt + 31 * 86400)%Z /\ eps < aqty.
Proof.
  intro Hin.
  destruct (matching_spec s dt q) as (_ & _ & _ & _ & Hsrc).
  rewrite List.Forall_forall in Hsrc. specialize (Hsrc _ Hin).
  destruct Hsrc as [(rec & _ & Hx)|(adt & aqty & cper & ts' & Hfa & He & Hx)];
    [discriminate|].
  injection Hx as -> ->. exists adt, aqty.
  apply eligible_iff in He. tauto.
Qed.

(** The write back and the 30-day loop keep the entries stamped. *)
Lemma write_back_stamped (fa : list Hmrc.FutureAcq) (ts : Z) (take : Q) :
  Forall stamped fa -> Forall stamped (Hmrc.write_back fa ts take).
Proof.
  induction fa as [|[[[adt aqty] cper] ts2] rest IH]; intro H;
    cbn [Hmrc.write_back]; [constructor|].
  inversion H as [|? ? Ha Hr]; subst.
  destruct (ts2 =? ts)%Z; constructor; auto.
Qed.

Lemma thirty_loop_stamped (thirty : list Hmrc.FutureAcq) :
  forall ql ct mu fa,
  Forall stamped fa ->
  Forall stamped (snd (Hmrc.thirty_loop thirty ql ct mu fa)).
Proof.
  induction thirty as [|[[[adt aqty] cper] ts] rest IH];
    intros ql ct mu fa H; cbn [Hmrc.thirty_loop]; [exact H|].
  destruct (Qle_bool ql eps); [exact H|].
  apply IH. apply write_back_stamped. exact H.
Qed.

Lemma matching_stamped (s : Hmrc.State) (dt : Z) (q : Q) :
  Forall stamped (Hmrc.future_acqs s) ->
  Forall stamped (Hmrc.o_future_acqs (Hmrc.matching s dt q)).
Proof.
  intro H. unfold Hmrc.matching.
  destruct (Hmrc.consume_from_list _ q) as [[sd_cost sd_used] sd_list].
  destruct (Hmrc.thirty_day_match _ _ _ _ _) as [[[ql ct] mu] fa] eqn:E.
  destruct (Hmrc.pool_match ql _ _ _) as [[[pc pu] pq] pcg].
  cbn [Hmrc.o_future_acqs].
  unfold Hmrc.thirty_day_match in E. destruct (Qlt_bool eps _).
  - change fa with (snd (ql, ct, mu, fa)). rewrite <- E.
    apply thirty_loop_stamped. exact H.
  - injection E as _ _ _ <-. exact H.
Qed.

(** The record of a disposal met in a state with stamped entries. *)
Lemma hmrc_record_in_window (gbp : Z -> Q) (s : Hmrc.State) (e : Event) :
  Forall stamped (Hmrc.future_acqs s) -> in_window (hmrc_record gbp s e).
Proof.
  intros Hst ts t c Hin.
  cbn [hmrc_record Hmrc.row Hmrc.matching_breakdown_json Hmrc.d_timestamp] in *.
  apply in_app_or in Hin. destruct Hin as [Hin|Hin].
  - destruct (thirty_entry_source _ _ _ _ _ _ Hin)
      as (adt & aqty & Hfa & H1 & H2 & _).
    rewrite List.Forall_forall in Hst. specialize (Hst _ Hfa).
    cbn in Hst. subst adt. split; assumption.
  - destruct (matching_spec s (timestamp e) (quantity e))
      as (_ & _ & _ & (ct & pc & Hp) & _).
    assert (Hu : Hmrc.o_pool_used (Hmrc.matching s (timestamp e) (quantity e))
                 = snd (fst (fst (Hmrc.pool_match
                          (Hmrc.o_qty_left
                             (Hmrc.matching s (timestamp e) (quantity e)))
                          ct (Hmrc.pool_qty s) (Hmrc.pool_cost_gbp s)))))
      by (rewrite Hp; reflexivity).
    rewrite Hu in Hin. apply pool_match_used in Hin.
    destruct Hin as (t' & c' & Hx). discriminate.
Qed.

(** Both passes keep the entries stamped and the records in the window. *)
Lemma hmrc_run_in_window (gbp : Z -> Q) (events : list Event) :
  Forall in_window (Hmrc.hmrc_pooling_disposals gbp events).
Proof.
  unfold Hmrc.hmrc_pooling_disposals, Hmrc.run.
  set (l := Hmrc.xtz_events_of events). clearbody l.
  assert (H1 : forall l s,
            Forall stamped (Hmrc.future_acqs s) ->
            Forall in_window (Hmrc.disposals s) ->
            Forall stamped
              (Hmrc.future_acqs (fold_left (Hmrc.record_acq gbp) l s)) /\
            Forall in_window
              (Hmrc.disposals (fold_left (Hmrc.record_acq gbp) l s))).
  { clear l. induction l as [|e r IH]; intros s Hs Hd; cbn [fold_left];
      [split; assumption|].
    apply IH; unfold Hmrc.record_acq; destruct (is_in (direction e));
      cbn [Hmrc.future_acqs Hmrc.disposals]; try assumption.
    apply Forall_app. split; [exact Hs|].
    constructor; [reflexivity | constructor]. }
  assert (H2 : forall l s,
            Forall stamped (Hmrc.future_acqs s) ->
            Forall in_window (Hmrc.disposals s) ->
            Forall in_window
              (Hmrc.disposals (fold_left (Hmrc.step gbp) l s))).
  { clear l. induction l as [|e r IH]; intros s Hs Hd; cbn [fold_left];
      [exact Hd|].
    destruct (direction e) eqn:Hdir.
    - apply IH; unfold Hmrc.step; rewrite Hdir; cbn; assumption.
    - rewrite (hmrc_step_dispose gbp s e Hdir). apply IH.
      + cbn [Hmrc.future_acqs]. apply matching_stamped. exact Hs.
      + cbn [Hmrc.disposals]. apply Forall_app. split; [exact Hd|].
        constructor; [|constructor]. apply hmrc_record_in_window. exact Hs. }
  destruct (H1 l Hmrc.start) as [Hs Hd]; [constructor | constructor |].
  apply H2; assumption.
Qed.

(** The window in calendar days: an acquisition on the 30th calendar day
    after the disposal is always inside it, one on the 31st day exactly
    when its time of day is earlier than that of the disposal. *)
Lemma window_by_calendar_day (dt adt : Z) :
  ((day_of adt - day_of dt = 30)%Z ->
   (dt < adt)%Z /\ (timedelta_days adt dt <= 30)%Z) /\
  ((day_of adt - day_of dt = 31)%Z ->
   (dt < adt)%Z /\
   ((timedelta_days adt dt <= 30)%Z
    <-> (time_of_day adt < time_of_day dt)%Z)).
Proof.
  unfold day_of, timedelta_days, time_of_day.
  pose proof (Z.div_mod adt 86400 ltac:(lia)) as Ha.
  pose proof (Z.div_mod dt 86400 ltac:(lia)) as Hd.
  pose proof (Z.mod_pos_bound adt 86400 ltac:(lia)) as Ba.
  pose proof (Z.mod_pos_bound dt 86400 ltac:(lia)) as Bd.
  split; intro H.
  - split; [lia|]. apply Z.lt_succ_r. apply Z.div_lt_upper_bound; lia.
  - split; [lia|]. split; intro L.
    + destruct (Z_lt_le_dec (adt mod 86400) (dt mod 86400)) as [X|X]; [exact X|].
      assert (31 <= (adt - dt) / 86400)%Z by (apply Z.div_le_lower_bound; lia).
      lia.
    + apply Z.lt_succ_r. apply Z.div_lt_upper_bound; lia.
Qed.

(** C8.  The 30-day step matches only acquisitions strictly after the
    disposal, but its window is a day too long.  The filter
    [(adt - dt).days <= 30] counts whole elapsed days, so an acquisition
    passes it exactly when it is after the disposal and less than 31
    days after it.  An acquisition on the 30th calendar day after the
    disposal always passes; one on the 31st calendar day passes as well
    whenever its time of day is earlier than that of the disposal.  With
    a disposal at noon of day 1 and an acquisition one second before
    noon of day 32, which is on the 31st calendar day after the disposal
    and more than 30 days after it, the engine matches the disposal
    against that acquisition under the 30-day rule. *)
Theorem acquisition_on_day_31_is_matched :
  (map Hmrc.matching_breakdown_json
     (Hmrc.hmrc_pooling_disposals (flat_price 2) late_window_events)
   = [[Hmrc.FromAcq30 (noon 32 - 1) 5 2]]) /\
  (day_of (noon 32 - 1) - day_of (noon 1) = 31)%Z /\
  (noon 1 + 30 * 86400 < noon 32 - 1)%Z /\
  (forall (dt adt : Z) (aqty cper : Q) (ts : Z),
     Hmrc.eligible dt (adt, aqty, cper, ts) = true
     <-> (dt < adt)%Z /\ (adt < dt + 31 * 86400)%Z /\ eps < aqty) /\
  (forall (dt adt : Z) (aqty cper : Q) (ts : Z),
     eps < aqty ->
     ((day_of adt - day_of dt = 30)%Z ->
      Hmrc.eligible dt (adt, aqty, cper, ts) = true) /\
     ((day_of adt - day_of dt = 31)%Z ->
      (Hmrc.eligible dt (adt, aqty, cper, ts) = true
       <-> (time_of_day adt < time_of_day dt)%Z))) /\
  (forall (gbp : Z -> Q) (events : list Event) (d : Hmrc.Disposal)
          (ts : Z) (t c : Q),
     In d (Hmrc.hmrc_pooling_disposals gbp events) ->
     In (Hmrc.FromAcq30 ts t c) (Hmrc.matching_breakdown_json d) ->
     (Hmrc.d_timestamp d < ts)%Z /\
     (ts < Hmrc.d_timestamp d + 31 * 86400)%Z).
Proof.
  conjs.
  - vm_compute. reflexivity.
  - reflexivity.
  - vm_compute. reflexivity.
  - apply eligible_iff.
  - intros dt adt aqty cper ts Hq.
    destruct (window_by_calendar_day dt adt) as [H30 H31].
    apply Qlt_bool_iff in Hq. unfold Hmrc.eligible.
    split; intro H.
    + destruct (H30 H) as [L D].
      apply Z.ltb_lt in L. apply Z.leb_le in D. rewrite L, D, Hq. reflexivity.
    + destruct (H31 H) as [L D]. apply Z.ltb_lt in L. rewrite L, Hq.
      rewrite andb_true_r, andb_true_l, Z.leb_le. exact D.
  - intros gbp events d ts t c Hd Hin.
    pose proof (hmrc_run_in_window gbp events) as H.
    rewrite List.Forall_forall in H. exact (H d Hd ts t c Hin).
Qed.

(** The theorem at acquisitions of 5 units at noon of day 31 and a
    second before noon of day 32, for a disposal at noon of day 1, and
    on the run of [late_window_events]. *)
Lemma acquisition_on_day_31_is_matched_witness :
  Hmrc.eligible (noon 1) (noon 31, 5, 2, noon 31) = true /\
  Hmrc.eligible (noon 1) ((noon 32 - 1)%Z, 5, 2, (noon 32 - 1)%Z) = true /\
  (noon 1 < noon 32 - 1 < noon 1 + 31 * 86400)%Z.
Proof.
  pose proof acquisition_on_day_31_is_matched as (_ & _ & _ & _ & Hday & Hrun).
  destruct (Hday (noon 1) (noon 31) 5 2 (noon 31) eq_refl) as [H30 _].
  destruct (Hday (noon 1) (noon 32 - 1)%Z 5 2 (noon 32 - 1)%Z eq_refl)
    as [_ H31].
  split; [apply H30; reflexivity|].
  split; [apply H31; reflexivity|].
  apply (Hrun (flat_price 2) late_window_events
           (hmrc_record (flat_price 2)
              (indexed (flat_price 2) late_window_events)
              (xtz (noon 1) DirOut 5))
           (noon 32 - 1)%Z 5 2).
  - vm_compute. left. reflexivity.
  - vm_compute. left. reflexivity.
Defined.

(* ================================================================= *)
(** * Self-transfers *)

Lemma In_omap {A B : Type} (f : A -> option B) (l : list A) (x : A) (y : B) :
  In x l -> f x = Some y -> In y (omap f l).
Proof.
  intros Hin Hf. apply list_elem_of_In. apply list_elem_of_omap.
  exists x. split; [apply list_elem_of_In; exact Hin | exact Hf].
Qed.

Lemma mutez_positive (amount : Q) : 0 < amount -> 0 < amount / 1000000.
Proof.
  intro H. apply Qlt_shift_div_l; [reflexivity | lra].
Qed.

(** C10. A tez transaction with a timestamp and a positive amount whose
    sender and target are both the scanned address becomes an event of
    direction "out" tagged [payment_or_disposal|self_transfer];
    [build_events] returns it, and both engines write a disposal record
    for it whenever it is among their events. *)
Theorem self_transfer_is_disposed (address : string) (op : XtzOp) (ts : Z) :
  op_timestamp op = Some ts ->
  op_sender op = address -> op_target op = address ->
  0 < op_amount op ->
  exists e,
    xtz_event (lower address) op = Some e /\
    direction e = DirOut /\
    tags e = "payment_or_disposal|self_transfer"%string /\
    is_xtz e = true /\
    timestamp e = ts /\
    quantity e = op_amount op / 1000000 /\
    0 < quantity e /\
    (forall xtz_ops tok_ops,
       In op xtz_ops -> In e (build_events address xtz_ops tok_ops)) /\
    (forall usd events,
       In e events ->
       exists d, In d (snd (Irs.classify_irs usd events)) /\
         Irs.d_timestamp d = ts /\ Irs.d_op_hash d = op_hash_field op /\
         Irs.qty_disposed d = quantity e) /\
    (forall gbp events,
       In e events ->
       exists d, In d (Hmrc.hmrc_pooling_disposals gbp events) /\
         Hmrc.d_timestamp d = ts /\ Hmrc.d_op_hash d = op_hash_field op /\
         Hmrc.qty_disposed d = quantity e).
Proof.
  intros Hts Hs Ht Hamt.
  pose proof (mutez_positive _ Hamt) as Hpos.
  assert (Hev : exists e, xtz_event (lower address) op = Some e /\
            direction e = DirOut /\
            tags e = "payment_or_disposal|self_transfer"%string /\
            is_xtz e = true /\ timestamp e = ts /\
            quantity e = op_amount op / 1000000 /\
            op_hash e = op_hash_field op).
  { unfold xtz_event. rewrite Hts, Hs, Ht, String.eqb_refl.
    assert (Z0 : Qeq_bool (op_amount op / 1000000) 0 = false).
    { destruct (Qeq_bool _ _) eqn:E; [|reflexivity].
      apply Qeq_bool_iff in E. lra. }
    rewrite Z0. cbn [andb negb is_in is_out].
    apply Qlt_bool_iff in Hpos. rewrite Hpos.
    eexists. split; [reflexivity|]. cbn. conjs; reflexivity. }
  destruct Hev as (e & He & Hdir & Htags & Hx & Het & Hq & Hh).
  exists e. rewrite Hq. conjs; try assumption; try reflexivity.
  - intros xtz_ops tok_ops Hin. unfold build_events.
    apply In_sort_by. apply in_or_app. left.
    eapply In_omap; [exact Hin | exact He].
  - intros usd events Hin.
    assert (Hqe : 0 < quantity e) by (rewrite Hq; exact Hpos).
    destruct (irs_fold_disposes usd e events Hx Hdir Hqe Hin Irs.start)
      as [lots Hd].
    eexists. split; [exact Hd|]. unfold Irs.dispose.
    cbn [fst Irs.d_timestamp Irs.d_op_hash Irs.qty_disposed].
    rewrite Het, Hh, Hq. conjs; reflexivity.
  - intros gbp events Hin.
    assert (Hqe : 0 < quantity e) by (rewrite Hq; exact Hpos).
    assert (Hin' : In e (Hmrc.xtz_events_of events)).
    { unfold Hmrc.xtz_events_of. apply In_sort_by. apply filter_In.
      split; [exact Hin|]. rewrite Hx. apply Qlt_bool_iff in Hqe.
      rewrite Hqe. reflexivity. }
    destruct (hmrc_fold_disposes gbp e _ Hdir Hin'
                (fold_left (Hmrc.record_acq gbp) (Hmrc.xtz_events_of events)
                   Hmrc.start))
      as [s' Hd].
    exists (hmrc_record gbp s' e). split; [exact Hd|].
    cbn [hmrc_record Hmrc.row Hmrc.d_timestamp Hmrc.d_op_hash Hmrc.qty_disposed].
    rewrite Het, Hh, Hq. conjs; reflexivity.
Qed.

(** The theorem at a transfer of 3 tez from an address to itself. *)
Lemma self_transfer_is_disposed_witness :
  exists e,
    xtz_event (lower self_address) self_transfer_op = Some e /\
    direction e = DirOut /\
    exists d,
      In d (Hmrc.hmrc_pooling_disposals (flat_price 2)
              (build_events self_address [self_transfer_op] [])) /\
      Hmrc.d_timestamp d = noon 5.
Proof.
  destruct (self_transfer_is_disposed self_address self_transfer_op (noon 5)
              eq_refl eq_refl eq_refl eq_refl)
    as (e & He & Hdir & _ & _ & _ & _ & _ & Hbuild & _ & Hhmrc).
  exists e. split; [exact He | split; [exact Hdir|]].
  destruct (Hhmrc (flat_price 2)
              (build_events self_address [self_transfer_op] [])
              (Hbuild [self_transfer_op] [] (or_introl eq_refl)))
    as (d & Hin & Hts & _).
  exists d. split; [exact Hin | exact Hts].
Defined.

(* ================================================================= *)
(** * Further properties *)

(** ** Pagination *)

Lemma paginate_from_serve {A : Type} (rows : list A) (limit : nat) :
  (0 < limit)%nat ->
  forall requests out offset,
  (length rows - offset < requests * limit)%nat ->
  paginate_from (serve rows) limit requests out offset
  = Rows (out ++ skipn offset rows).
Proof.
  intros Hl requests. induction requests as [|n IH]; intros out offset Hr.
  - simpl in Hr. lia.
  - cbn [paginate_from]. unfold serve at 1.
    destruct (firstn limit (skipn offset rows)) as [|x page] eqn:Hp.
    + assert (Hlen : length (firstn limit (skipn offset rows)) = 0%nat)
        by (rewrite Hp; reflexivity).
      rewrite length_firstn, length_skipn in Hlen.
      rewrite (skipn_all2 (n:=offset) rows) by lia.
      rewrite app_nil_r. reflexivity.
    + rewrite <- Hp.
      pose proof (length_firstn limit (skipn offset rows)) as Hlen.
      rewrite length_skipn in Hlen.
      destruct (length (firstn limit (skipn offset rows)) <? limit)%nat eqn:Hc.
      * apply Nat.ltb_lt in Hc.
        rewrite firstn_all2 by (rewrite length_skipn; lia). reflexivity.
      * apply Nat.ltb_ge in Hc.
        rewrite IH by (simpl in Hr; lia).
        rewrite <- app_assoc.
        replace (skipn (offset + limit) rows)
          with (skipn limit (skipn offset rows))
          by (rewrite skipn_skipn; f_equal; lia).
        rewrite firstn_skipn. reflexivity.
Qed.

(** X1. Against an indexer that serves its rows by slices, a positive
    page size and enough requests, [tzkt_paginated] returns all the rows,
    once each and in order; one request more than there are full pages is
    enough. *)
Theorem tzkt_paginated_returns_all_rows {A : Type} (rows : list A)
    (limit requests : nat) :
  (0 < limit)%nat -> (length rows / limit < requests)%nat ->
  tzkt_paginated (serve rows) limit requests = Rows rows.
Proof.
  intros Hl Hr. unfold tzkt_paginated.
  rewrite (paginate_from_serve rows limit Hl) ; [reflexivity|].
  rewrite Nat.sub_0_r.
  pose proof (Nat.mul_succ_div_gt (length rows) limit ltac:(lia)) as H.
  assert (S (length rows / limit) <= requests)%nat by lia.
  nia.
Qed.

(** The theorem at five rows served two at a time. *)
Lemma tzkt_paginated_returns_all_rows_witness :
  tzkt_paginated (serve [1; 2; 3; 4; 5]%nat) 2 3 = Rows [1; 2; 3; 4; 5]%nat.
Proof.
  apply tzkt_paginated_returns_all_rows; [lia | vm_compute; lia].
Defined.

(** ** Sorting keeps the events and the order of equal timestamps *)

Section StableSortMore.
Context {A : Type} (key : A -> Z).

Lemma insert_by_perm (x : A) (l : list A) :
  Permutation (insert_by key x l) (x :: l).
Proof.
  induction l as [|y r IH]; cbn [insert_by]; [reflexivity|].
  destruct (key x <=? key y)%Z; [reflexivity|].
  rewrite IH. apply perm_swap.
Qed.

Lemma sort_by_perm (l : list A) : Permutation (sort_by key l) l.
Proof.
  induction l as [|x r IH]; cbn [sort_by]; [reflexivity|].
  rewrite insert_by_perm, IH. reflexivity.
Qed.

Lemma same_key_sorted (k : Z) (l : list A) :
  Forall (fun a => key a = k) l -> StronglySorted (le_key key) l.
Proof.
  induction 1 as [|x r Hx Hr IH]; constructor; [exact IH|].
  eapply List.Forall_impl; [|exact Hr].
  intros a Ha. cbv beta in Ha. unfold le_key. lia.
Qed.

(** The elements with one key come out of the sort in the order they
    went in. *)
Lemma sort_by_stable (k : Z) (l : list A) :
  with_key key k (sort_by key l) = with_key key k l.
Proof.
  unfold with_key. rewrite filter_sort_by.
  apply sort_by_fixed. apply (same_key_sorted k).
  apply List.Forall_forall. intros a Ha. apply filter_In in Ha.
  destruct Ha as [_ Ha]. apply Z.eqb_eq in Ha. exact Ha.
Qed.
End StableSortMore.

(** X2. [build_events] neither drops nor duplicates an event it has
    built: its result is a permutation of the events gathered from the
    two lists of operations, and events with the same timestamp keep the
    order in which they were gathered (tez operations first, each list in
    its own order). *)
Theorem build_events_is_stable_sort (address : string)
    (xtz_ops : list XtzOp) (tok_ops : list TokenTransferOp) :
  Permutation (build_events address xtz_ops tok_ops)
              (gathered address xtz_ops tok_ops) /\
  forall t : Z,
    with_key timestamp t (build_events address xtz_ops tok_ops)
    = with_key timestamp t (gathered address xtz_ops tok_ops).
Proof.
  split.
  - apply sort_by_perm.
  - intro t. apply sort_by_stable.
Qed.

(** ** What the engines read of the events *)

Lemma has_colon_app (a b : string) :
  has_colon (a ++ b) = has_colon a || has_colon b.
Proof.
  induction a as [|c r IH]; simpl; [reflexivity|].
  rewrite IH. apply orb_assoc.
Qed.

Lemma token_event_not_xtz (addr : string) (tr : TokenTransferOp) (e : Event) :
  token_event addr tr = Some e -> is_xtz e = false.
Proof.
  unfold token_event. destruct (tr_timestamp tr); [|discriminate].
  intro H. injection H as <-. unfold is_xtz. cbn [asset].
  destruct (String.eqb _ "XTZ") eqn:E; [|reflexivity].
  apply String.eqb_eq in E.
  apply (f_equal has_colon) in E. rewrite has_colon_app in E.
  rewrite (has_colon_app ":") in E. cbn in E.
  rewrite orb_true_r in E. discriminate.
Qed.

Lemma mutez_zero (amount : Q) : amount == 0 -> amount / 1000000 == 0.
Proof. intro H. rewrite H. reflexivity. Qed.

(** X3. No token transfer and no operation that moves no tez is priced:
    the event of a token transfer is never a tez event, whatever the
    symbol of the token, and the event of a tez operation with amount 0
    (kept for its fee) has quantity 0; neither is an event that the
    engines price. *)
Theorem tokens_and_fee_only_operations_are_not_priced (addr : string) :
  (forall (tr : TokenTransferOp) (e : Event),
     token_event addr tr = Some e -> pos_xtz e = false) /\
  (forall (op : XtzOp) (e : Event),
     xtz_event addr op = Some e -> op_amount op == 0 ->
     quantity e == 0 /\ ~ fee_xtz e == 0 /\ pos_xtz e = false).
Proof.
  split.
  - intros tr e H. unfold pos_xtz.
    rewrite (token_event_not_xtz _ _ _ H). reflexivity.
  - intros op e H Hz. unfold xtz_event in H.
    destruct (op_timestamp op); [|discriminate].
    destruct (Qeq_bool (op_amount op / 1000000) 0
              && Qeq_bool (op_fee op / 1000000) 0) eqn:Hskip; [discriminate|].
    injection H as <-. unfold pos_xtz. cbn [quantity fee_xtz clamp].
    pose proof (mutez_zero _ Hz) as Hq. unfold clamp.
    conjs.
    + exact Hq.
    + intro Hf. apply andb_false_iff in Hskip. destruct Hskip as [E|E].
      * apply Qeq_bool_iff in Hq. congruence.
      * apply Qeq_bool_iff in Hf. congruence.
    + apply andb_false_iff. right. apply Qlt_bool_false. rewrite Hq. lra.
Qed.

(** The theorem at a contract call that moves no tez. *)
Lemma tokens_and_fee_only_operations_are_not_priced_witness :
  exists e,
    xtz_event (lower self_address) fee_only_op = Some e /\
    quantity e == 0 /\ pos_xtz e = false.
Proof.
  eexists. split; [reflexivity|].
  destruct (proj2 (tokens_and_fee_only_operations_are_not_priced
                     (lower self_address)) fee_only_op _ eq_refl eq_refl)
    as (H1 & _ & H3).
  split; [exact H1 | exact H3].
Defined.

(** ** The records of the two engines, event by event *)

Section IrsRecords.
Variable usd : Z -> Q.

Lemma irs_step_no_record (s : Irs.State) (e : Event) :
  is_disposal e = false -> Irs.disposals (Irs.step usd s e) = Irs.disposals s.
Proof.
  unfold is_disposal, Irs.step. intro H.
  destruct (is_xtz e); [|reflexivity].
  destruct (direction e); cbn [is_in is_out andb] in *.
  - destruct (Qlt_bool 0 (quantity e)); reflexivity.
  - rewrite H. reflexivity.
Qed.

Lemma irs_step_skip (s : Irs.State) (e : Event) :
  pos_xtz e = false ->
  Irs.disposals (Irs.step usd s e) = Irs.disposals s /\
  Irs.xtz_lots (Irs.step usd s e) = Irs.xtz_lots s.
Proof.
  unfold pos_xtz, Irs.step. intro H.
  destruct (is_xtz e); [|split; reflexivity].
  cbn [andb] in H. rewrite H, !andb_false_r. split; reflexivity.
Qed.

Lemma irs_step_core (s s' : Irs.State) (e : Event) :
  Irs.disposals s = Irs.disposals s' -> Irs.xtz_lots s = Irs.xtz_lots s' ->
  Irs.disposals (Irs.step usd s e) = Irs.disposals (Irs.step usd s' e) /\
  Irs.xtz_lots (Irs.step usd s e) = Irs.xtz_lots (Irs.step usd s' e).
Proof.
  intros Hd Hl. unfold Irs.step. rewrite Hd, Hl.
  destruct (is_xtz e); [|split; reflexivity].
  destruct (is_in (direction e) && Qlt_bool 0 (quantity e));
    [split; reflexivity|].
  destruct (is_out (direction e) && Qlt_bool 0 (quantity e));
    [|split; reflexivity].
  destruct (Irs.dispose _ _ _). split; reflexivity.
Qed.

Lemma irs_fold_priced (events : list Event) :
  forall s s',
  Irs.disposals s = Irs.disposals s' -> Irs.xtz_lots s = Irs.xtz_lots s' ->
  Irs.disposals (fold_left (Irs.step usd) events s)
  = Irs.disposals (fold_left (Irs.step usd) (List.filter pos_xtz events) s') /\
  Irs.xtz_lots (fold_left (Irs.step usd) events s)
  = Irs.xtz_lots (fold_left (Irs.step usd) (List.filter pos_xtz events) s').
Proof.
  induction events as [|e r IH]; intros s s' Hd Hl; cbn [fold_left List.filter];
    [split; assumption|].
  destruct (pos_xtz e) eqn:Hp; cbn [fold_left].
  - destruct (irs_step_core s s' e Hd Hl) as [Hd' Hl']. apply IH; assumption.
  - destruct (irs_step_skip s e Hp) as [Hd' Hl'].
    apply IH; congruence.
Qed.

Lemma irs_fold_keys (events : list Event) :
  forall s,
  map irs_key (Irs.disposals (fold_left (Irs.step usd) events s))
  = (map irs_key (Irs.disposals s)
     ++ map event_key (List.filter is_disposal events))%list.
Proof.
  induction events as [|e r IH]; intro s; cbn [fold_left List.filter map].
  - rewrite app_nil_r. reflexivity.
  - rewrite IH. destruct (is_disposal e) eqn:Hdisp.
    + unfold is_disposal in Hdisp.
      apply andb_true_iff in Hdisp. destruct Hdisp as [Hdisp Hq].
      apply andb_true_iff in Hdisp. destruct Hdisp as [Hx Hout].
      assert (Hdir : direction e = DirOut)
        by (destruct (direction e); [discriminate | reflexivity]).
      apply Qlt_bool_iff in Hq.
      destruct (irs_step_dispose usd s e Hx Hdir Hq) as [-> _].
      rewrite map_app, <- app_assoc. reflexivity.
    + rewrite (irs_step_no_record s e Hdisp). reflexivity.
Qed.

Lemma irs_fold_ledger (events : list Event) :
  forall s,
  map Irs.row_event (Irs.ledger (fold_left (Irs.step usd) events s))
  = (map Irs.row_event (Irs.ledger s) ++ events)%list.
Proof.
  induction events as [|e r IH]; intro s; cbn [fold_left].
  - rewrite app_nil_r. reflexivity.
  - rewrite IH.
    assert (H : map Irs.row_event (Irs.ledger (Irs.step usd s e))
                = (map Irs.row_event (Irs.ledger s) ++ [e])%list).
    { unfold Irs.step.
      destruct (is_xtz e);
        [destruct (is_in (direction e) && Qlt_bool 0 (quantity e));
         [|destruct (is_out (direction e) && Qlt_bool 0 (quantity e));
           [destruct (Irs.dispose _ _ _)|]]
        |destruct (is_out (direction e))];
        cbn [Irs.ledger]; rewrite map_app; reflexivity. }
    rewrite H, <- app_assoc. reflexivity.
Qed.
End IrsRecords.

Section HmrcRecords.
Variable gbp : Z -> Q.

Lemma hmrc_first_pass_disposals (l : list Event) :
  forall s,
  Hmrc.disposals (fold_left (Hmrc.record_acq gbp) l s) = Hmrc.disposals s.
Proof.
  induction l as [|e r IH]; intro s; cbn [fold_left]; [reflexivity|].
  rewrite IH. unfold Hmrc.record_acq. destruct (is_in (direction e)); reflexivity.
Qed.

Lemma hmrc_fold_keys (l : list Event) :
  forall s,
  map hmrc_key (Hmrc.disposals (fold_left (Hmrc.step gbp) l s))
  = (map hmrc_key (Hmrc.disposals s)
     ++ map event_key (List.filter (fun e => is_out (direction e)) l))%list.
Proof.
  induction l as [|e r IH]; intro s; cbn [fold_left List.filter map].
  - rewrite app_nil_r. reflexivity.
  - rewrite IH. destruct (direction e) eqn:Hd; cbn [is_out].
    + unfold Hmrc.step. rewrite Hd. reflexivity.
    + rewrite (hmrc_step_dispose gbp s e Hd). cbn [Hmrc.disposals].
      rewrite map_app, <- app_assoc. reflexivity.
Qed.
End HmrcRecords.

Lemma filter_twice {A : Type} (f g : A -> bool) (l : list A) :
  List.filter f (List.filter g l) = List.filter (fun x => g x && f x) l.
Proof.
  induction l as [|x r IH]; cbn [List.filter]; [reflexivity|].
  destruct (g x); cbn [List.filter andb]; rewrite IH; reflexivity.
Qed.

Lemma xtz_events_disposals (events : list Event) :
  List.filter (fun e => is_out (direction e)) (Hmrc.xtz_events_of events)
  = sort_by timestamp (List.filter is_disposal events).
Proof.
  unfold Hmrc.xtz_events_of. rewrite filter_sort_by, filter_twice.
  f_equal. apply filter_ext. intro e. unfold is_disposal.
  destruct (is_xtz e), (is_out (direction e)), (Qlt_bool 0 (quantity e));
    reflexivity.
Qed.

(** X4. The disposal records of both engines, and the lots of the FIFO
    engine, depend only on the tez events of positive quantity: removing
    every other event (token transfers, operations kept for their fee)
    from the input changes none of them. *)
Theorem records_depend_on_priced_events_only (usd gbp : Z -> Q)
    (events : list Event) :
  snd (Irs.classify_irs usd events)
  = snd (Irs.classify_irs usd (List.filter pos_xtz events)) /\
  Irs.xtz_lots (Irs.run usd events)
  = Irs.xtz_lots (Irs.run usd (List.filter pos_xtz events)) /\
  Hmrc.run gbp events = Hmrc.run gbp (List.filter pos_xtz events).
Proof.
  destruct (irs_fold_priced usd events Irs.start Irs.start eq_refl eq_refl)
    as [Hd Hl].
  conjs; [exact Hd | exact Hl |].
  unfold Hmrc.run, Hmrc.xtz_events_of.
  change (fun e : Event => is_xtz e && Qlt_bool 0 (quantity e)) with pos_xtz.
  rewrite (filter_twice pos_xtz pos_xtz).
  rewrite (filter_ext (fun x => pos_xtz x && pos_xtz x) pos_xtz)
    by (intro x; destruct (pos_xtz x); reflexivity).
  reflexivity.
Qed.

(** X5. Both engines write one record for each tez event of direction
    "out" and positive quantity, and for no other event, with the
    timestamp, the quantity and the operation hash of the event: the FIFO
    engine in the order of the input, the HMRC engine in ascending order of
    timestamp.  On an input in ascending order the two engines report the
    same disposals in the same order. *)
Theorem engines_report_the_same_disposals (usd gbp : Z -> Q)
    (events : list Event) :
  map irs_key (snd (Irs.classify_irs usd events))
    = map event_key (List.filter is_disposal events) /\
  map hmrc_key (Hmrc.hmrc_pooling_disposals gbp events)
    = map event_key (sort_by timestamp (List.filter is_disposal events)) /\
  Permutation (map hmrc_key (Hmrc.hmrc_pooling_disposals gbp events))
              (map irs_key (snd (Irs.classify_irs usd events))) /\
  (ascending events ->
   map hmrc_key (Hmrc.hmrc_pooling_disposals gbp events)
   = map irs_key (snd (Irs.classify_irs usd events))).
Proof.
  assert (H1 : map irs_key (snd (Irs.classify_irs usd events))
               = map event_key (List.filter is_disposal events))
    by (cbn [snd Irs.classify_irs]; unfold Irs.run;
        rewrite irs_fold_keys; reflexivity).
  assert (H2 : map hmrc_key (Hmrc.hmrc_pooling_disposals gbp events)
               = map event_key
                   (sort_by timestamp (List.filter is_disposal events))).
  { unfold Hmrc.hmrc_pooling_disposals, Hmrc.run.
    rewrite hmrc_fold_keys, hmrc_first_pass_disposals, xtz_events_disposals.
    reflexivity. }
  conjs; [exact H1 | exact H2 | |].
  - rewrite H1, H2. apply Permutation_map. apply sort_by_perm.
  - intro Hasc. rewrite H1, H2. f_equal.
    rewrite <- filter_sort_by. f_equal. apply sort_by_fixed. exact Hasc.
Qed.

(** The theorem at the scenario, whose events are in ascending order. *)
Lemma engines_report_the_same_disposals_witness :
  map hmrc_key (Hmrc.hmrc_pooling_disposals (flat_price 2) scenario_events)
  = map irs_key (snd (Irs.classify_irs scenario_price scenario_events)).
Proof.
  apply (proj2 (proj2 (proj2 (engines_report_the_same_disposals
                                scenario_price (flat_price 2)
                                scenario_events)))).
  repeat constructor; vm_compute; discriminate.
Defined.

(** ** Rounding to eight decimals *)

Lemma round8_value (x : Q) :
  exists n : Z,
    round8 x == inject_Z n * (1 # 100000000) /\
    Qabs (inject_Z n - x * 100000000) <= 1 # 2.
Proof.
  unfold round8.
  set (scaled := x * (100000000 # 1)).
  pose proof (Qfloor_le scaled) as Hlo.
  pose proof (Qlt_floor scaled) as Hhi.
  rewrite inject_Z_plus in Hhi.
  change (inject_Z 1) with 1 in Hhi.
  assert (Hv : forall n : Z,
            Qred (n # 100000000) == inject_Z n * (1 # 100000000)).
  { intro n. rewrite Qred_correct. rewrite (Qmake_Qdiv n 100000000).
    reflexivity. }
  destruct (Qcompare (scaled - inject_Z (Qfloor scaled)) (1 # 2)) eqn:C.
  - apply Qeq_alt in C.
    destruct (Z.even (Qfloor scaled)).
    + exists (Qfloor scaled). split; [apply Hv|].
      apply Qabs_Qle_condition. fold scaled. split; lra.
    + exists (Qfloor scaled + 1)%Z. split; [apply Hv|].
      rewrite inject_Z_plus. change (inject_Z 1) with 1.
      apply Qabs_Qle_condition. fold scaled. split; lra.
  - apply Qlt_alt in C.
    exists (Qfloor scaled). split; [apply Hv|].
    apply Qabs_Qle_condition. fold scaled. split; lra.
  - apply Qgt_alt in C.
    exists (Qfloor scaled + 1)%Z. split; [apply Hv|].
    rewrite inject_Z_plus. change (inject_Z 1) with 1.
    apply Qabs_Qle_condition. fold scaled. split; lra.
Qed.

Lemma round8_is_nearest_aux (x : Q) :
  - half_ulp8 <= round8 x - x /\ round8 x - x <= half_ulp8.
Proof.
  destruct (round8_value x) as (n & Hv & Hn).
  apply Qabs_Qle_condition in Hn. destruct Hn as [H1 H2].
  rewrite Hv. unfold half_ulp8. split; lra.
Qed.

(** ** What holds of every record of a run *)

Lemma irs_run_forall (usd : Z -> Q) (P : Irs.Disposal -> Prop) :
  (forall e fmv lots, is_disposal e = true ->
     P (fst (Irs.dispose e fmv lots))) ->
  forall events, Forall P (snd (Irs.classify_irs usd events)).
Proof.
  intros HP events. cbn [snd Irs.classify_irs]. unfold Irs.run.
  assert (H : forall s, Forall P (Irs.disposals s) ->
              Forall P (Irs.disposals (fold_left (Irs.step usd) events s))).
  { induction events as [|e r IH]; intros s Hs; cbn [fold_left]; [exact Hs|].
    apply IH. destruct (is_disposal e) eqn:Hdisp.
    - pose proof Hdisp as Hd'. unfold is_disposal in Hd'.
      apply andb_true_iff in Hd'. destruct Hd' as [Hd' Hq].
      apply andb_true_iff in Hd'. destruct Hd' as [Hx Hout].
      assert (Hdir : direction e = DirOut)
        by (destruct (direction e); [discriminate | reflexivity]).
      apply Qlt_bool_iff in Hq.
      destruct (irs_step_dispose usd s e Hx Hdir Hq) as [-> _].
      apply Forall_app. split; [exact Hs|].
      constructor; [|constructor]. apply HP. exact Hdisp.
    - rewrite (irs_step_no_record usd s e Hdisp). exact Hs. }
  apply H. constructor.
Qed.

Lemma hmrc_run_forall (gbp : Z -> Q) (P : Hmrc.Disposal -> Prop) :
  (forall s e, pos_xtz e = true -> direction e = DirOut ->
     P (hmrc_record gbp s e)) ->
  forall events, Forall P (Hmrc.hmrc_pooling_disposals gbp events).
Proof.
  intros HP events. unfold Hmrc.hmrc_pooling_disposals, Hmrc.run.
  assert (Hpos : Forall (fun e => pos_xtz e = true) (Hmrc.xtz_events_of events)).
  { apply List.Forall_forall. intros e He. unfold Hmrc.xtz_events_of in He.
    apply In_sort_by in He. apply filter_In in He. apply He. }
  assert (Hs0 : Forall P (Hmrc.disposals
                   (fold_left (Hmrc.record_acq gbp)
                      (Hmrc.xtz_events_of events) Hmrc.start)))
    by (rewrite hmrc_first_pass_disposals; constructor).
  revert Hs0. generalize (fold_left (Hmrc.record_acq gbp)
                            (Hmrc.xtz_events_of events) Hmrc.start).
  induction Hpos as [|e r He Hr IH]; intros s Hs; cbn [fold_left]; [exact Hs|].
  apply IH. destruct (direction e) eqn:Hd.
  - unfold Hmrc.step. rewrite Hd. exact Hs.
  - rewrite (hmrc_step_dispose gbp s e Hd). cbn [Hmrc.disposals].
    apply Forall_app. split; [exact Hs|].
    constructor; [|constructor]. apply HP; assumption.
Qed.

Lemma round8_gain (p b : Q) :
  Qabs (round8 (p - b) - (round8 p - round8 b)) <= 3 * half_ulp8.
Proof.
  destruct (round8_is_nearest_aux (p - b)) as [H1 H2].
  destruct (round8_is_nearest_aux p) as [H3 H4].
  destruct (round8_is_nearest_aux b) as [H5 H6].
  apply Qabs_Qle_condition. split; lra.
Qed.

(** X7. In every record of either engine the cost reported is the
    rounded cost of the entries of the breakdown (quantity taken times
    unit cost, added up), and the gain reported differs from the proceeds
    reported minus the cost reported by at most one and a half units of
    the eighth decimal. *)
Theorem reported_cost_is_breakdown_cost (usd gbp : Z -> Q)
    (events : list Event) :
  Forall (fun d =>
            Irs.basis_usd_fifo_est d
              = round8 (irs_entries_cost (Irs.lot_breakdown_json d)) /\
            Qabs (Irs.gain_usd_est d
                  - (Irs.proceeds_usd_est d - Irs.basis_usd_fifo_est d))
              <= 3 * half_ulp8)
         (snd (Irs.classify_irs usd events)) /\
  Forall (fun d =>
            Hmrc.allowable_cost_gbp_est d
              = round8 (hmrc_entries_cost (Hmrc.matching_breakdown_json d)) /\
            Qabs (Hmrc.gain_gbp_est d
                  - (Hmrc.proceeds_gbp_est d - Hmrc.allowable_cost_gbp_est d))
              <= 3 * half_ulp8)
         (Hmrc.hmrc_pooling_disposals gbp events).
Proof.
  split.
  - apply irs_run_forall. intros e fmv lots _. unfold Irs.dispose.
    cbn [fst Irs.basis_usd_fifo_est Irs.lot_breakdown_json Irs.gain_usd_est
         Irs.proceeds_usd_est].
    split; [|apply round8_gain].
    apply round8_proper. apply fifo_taken.
  - apply hmrc_run_forall. intros s e _ _.
    cbn [hmrc_record Hmrc.row Hmrc.allowable_cost_gbp_est
         Hmrc.matching_breakdown_json Hmrc.gain_gbp_est Hmrc.proceeds_gbp_est].
    split; [|apply round8_gain].
    apply round8_proper. apply matching_spec.
Qed.

(** ** Quantities acquired *)

Lemma acquired_cons (e : Event) (events : list Event) :
  acquired (e :: events)
  == (if is_acquisition e then quantity e else 0) + acquired events.
Proof.
  unfold acquired. cbn [List.filter]. destruct (is_acquisition e).
  - cbn [map]. apply py_sum_cons.
  - ring.
Qed.

(** ** The same-day step comes first *)

(** X9.  A disposal above the tolerance that the first record of the
    bucket of its day covers (the record does not hold less than the
    disposed quantity) is matched against that record alone, at that
    record's unit cost, whatever [future_acqs] and the pool hold: the
    breakdown is the one same-day entry, which takes exactly the
    disposed quantity, and [future_acqs] and the pool are left as they
    were.  This holds in binary64 for every float.  It does not extend
    to a disposal that takes several records of the bucket: with records
    of 4923.572717 and 19076.276259 tez and a disposal of 16134.86829
    tez the same-day loop leaves nothing, but the residual that the
    engine recomputes from the sum of the takes is [2^-39], above
    [1e-12], and the pool step writes an entry for it. *)
Theorem same_day_match_comes_first :
  (forall (py_sum : list spec_float -> spec_float) (s : Hmrc64.State)
          (dt : Z) (q : spec_float) (rec : Hmrc64.Acq)
          (rest : list Hmrc64.Acq),
     (forall x, py_sum [x] = B64.add B64.zero x) ->
     default [] (Hmrc64.acq_by_day s !! day_of dt) = rec :: rest ->
     B64.ltb B64.eps q = true ->
     B64.ltb (Hmrc64.qty rec) q = false ->
     let o := Hmrc64.matching py_sum s dt q in
     Hmrc64.o_match_used o
     = [Hmrc64.FromAcq (Hmrc64.ts rec) q (Hmrc64.cost_per rec)] /\
     Hmrc64.o_pool_used o = [] /\
     Hmrc64.o_cost_total o
     = B64.add B64.zero (B64.mul q (Hmrc64.cost_per rec)) /\
     Hmrc64.o_future_acqs o = Hmrc64.future_acqs s /\
     Hmrc64.o_pool_qty o = Hmrc64.pool_qty s /\
     Hmrc64.o_pool_cost_gbp o = Hmrc64.pool_cost_gbp s) /\
  (let o := Hmrc64.matching B64.sum rounding_state (noon 4)
              rounding_same_day_disposal in
   map is_same_day_b (Hmrc64.o_match_used o) = [true; true] /\
   running_residual rounding_same_day_disposal
     (map Hmrc64.take_qty (Hmrc64.o_match_used o)) = B64.zero /\
   B64.to_Q (Hmrc64.o_qty_left o) == 1 # 549755813888 /\
   Hmrc64.o_pool_used o
   = [Hmrc64.FromPool (Hmrc64.o_qty_left o) (B64.of_Z 2)]).
Proof.
  split.
  - apply matching64_same_day_covers.
  - vm_compute. repeat split.
Qed.

(** The theorem at a disposal of 3 tez at noon of a day on which 10 tez
    were acquired a minute earlier. *)
Lemma same_day_match_comes_first_witness :
  Hmrc64.o_match_used
    (Hmrc64.matching B64.sum same_day_state64 (noon 4) (B64.of_Z 3))
  = [Hmrc64.FromAcq (noon 4 - 60) (B64.of_Z 3) (B64.of_Z 2)] /\
  Hmrc64.o_pool_qty
    (Hmrc64.matching B64.sum same_day_state64 (noon 4) (B64.of_Z 3))
  = B64.of_Z 10.
Proof.
  destruct (proj1 same_day_match_comes_first B64.sum same_day_state64 (noon 4)
              (B64.of_Z 3) (acq64 (noon 4 - 60) 10000000) [])
    as (H1 & _ & _ & _ & H5 & _); try reflexivity.
  split; [exact H1 | exact H5].
Defined.

(** ** The index that the first pass builds *)

Lemma record_acq_spec (gbp : Z -> Q) (s : Hmrc.State) (e : Event) :
  Hmrc.future_acqs (Hmrc.record_acq gbp s e)
  = (Hmrc.future_acqs s
     ++ if is_in (direction e) then [future_record gbp e] else [])%list /\
  (forall d : Z,
     default [] (Hmrc.acq_by_day (Hmrc.record_acq gbp s e) !! d)
     = (default [] (Hmrc.acq_by_day s !! d)
        ++ if is_in (direction e) && (day_of (timestamp e) =? d)%Z
           then [bucket_record gbp e] else [])%list) /\
  Hmrc.pool_qty (Hmrc.record_acq gbp s e) = Hmrc.pool_qty s /\
  Hmrc.pool_cost_gbp (Hmrc.record_acq gbp s e) = Hmrc.pool_cost_gbp s.
Proof.
  unfold Hmrc.record_acq, iso_to_dt, Hmrc.xtz_fmv.
  destruct (is_in (direction e)); cbn [andb].
  - cbn [Hmrc.future_acqs Hmrc.pool_qty Hmrc.pool_cost_gbp Hmrc.acq_by_day].
    conjs; try reflexivity.
    intro d. rewrite lookup_insert.
    destruct (decide (day_of (timestamp e) = d)) as [<-|Hne].
    + rewrite Z.eqb_refl. reflexivity.
    + apply Z.eqb_neq in Hne. rewrite Hne, app_nil_r. reflexivity.
  - conjs; try reflexivity; [apply eq_sym, app_nil_r|].
    intro d. rewrite app_nil_r. reflexivity.
Qed.

Lemma first_pass_from (gbp : Z -> Q) (l : list Event) :
  forall s,
  Hmrc.future_acqs (fold_left (Hmrc.record_acq gbp) l s)
  = (Hmrc.future_acqs s
     ++ map (future_record gbp)
          (List.filter (fun e => is_in (direction e)) l))%list /\
  (forall d : Z,
     default [] (Hmrc.acq_by_day (fold_left (Hmrc.record_acq gbp) l s) !! d)
     = (default [] (Hmrc.acq_by_day s !! d)
        ++ map (bucket_record gbp)
             (List.filter (fun e => is_in (direction e)
                                    && (day_of (timestamp e) =? d)%Z) l))%list) /\
  Hmrc.pool_qty (fold_left (Hmrc.record_acq gbp) l s) = Hmrc.pool_qty s /\
  Hmrc.pool_cost_gbp (fold_left (Hmrc.record_acq gbp) l s)
  = Hmrc.pool_cost_gbp s.
Proof.
  induction l as [|e r IH]; intro s; cbn [fold_left List.filter map].
  - rewrite app_nil_r. conjs; try reflexivity.
    intro d. rewrite app_nil_r. reflexivity.
  - destruct (IH (Hmrc.record_acq gbp s e)) as (Hf & Hb & Hq & Hc).
    destruct (record_acq_spec gbp s e) as (Sf & Sb & Sq & Sc).
    rewrite Hf, Hq, Hc, Sf, Sq, Sc. conjs; try reflexivity.
    + rewrite <- app_assoc. destruct (is_in (direction e)); reflexivity.
    + intro d. rewrite Hb, Sb, <- app_assoc.
      destruct (is_in (direction e) && (day_of (timestamp e) =? d)%Z);
        reflexivity.
Qed.

(** X10. The first pass of the HMRC engine files every acquisition once
    in [future_acqs] and once in the bucket of its own calendar day and
    in no other bucket, both in the order of the events, with the
    quantity of the event and the price of its day; it leaves the pool
    empty. *)
Theorem first_pass_indexes_acquisitions (gbp : Z -> Q) (l : list Event) :
  let s := fold_left (Hmrc.record_acq gbp) l Hmrc.start in
  Hmrc.future_acqs s
    = map (future_record gbp) (List.filter (fun e => is_in (direction e)) l) /\
  (forall d : Z,
     default [] (Hmrc.acq_by_day s !! d)
     = map (bucket_record gbp)
         (List.filter (fun e => is_in (direction e)
                                && (day_of (timestamp e) =? d)%Z) l)) /\
  Hmrc.pool_qty s = 0 /\ Hmrc.pool_cost_gbp s = 0.
Proof.
  destruct (first_pass_from gbp l Hmrc.start) as (Hf & Hb & Hq & Hc).
  cbv zeta. conjs.
  - exact Hf.
  - intro d. rewrite Hb. reflexivity.
  - exact Hq.
  - exact Hc.
Qed.

(** ** What the 30-day step does to [future_acqs] *)

Lemma future_qty_cons (a : Hmrc.FutureAcq) (fa : list Hmrc.FutureAcq) :
  future_qty (a :: fa) == future_qty_of a + future_qty fa.
Proof. unfold future_qty. cbn [map]. apply py_sum_cons. Qed.

Lemma write_back_id (fa : list Hmrc.FutureAcq) (ts : Z) (take : Q) :
  map future_id (Hmrc.write_back fa ts take) = map future_id fa.
Proof.
  induction fa as [|[[[adt aqty] cper] ts2] rest IH];
    cbn [Hmrc.write_back map]; [reflexivity|].
  destruct (ts2 =? ts)%Z; cbn [map future_id]; [reflexivity|].
  rewrite IH. reflexivity.
Qed.

Lemma write_back_qty (fa : list Hmrc.FutureAcq) (ts : Z) (take : Q) :
  In ts (map future_ts fa) ->
  future_qty (Hmrc.write_back fa ts take) == future_qty fa - take.
Proof.
  induction fa as [|[[[adt aqty] cper] ts2] rest IH];
    cbn [Hmrc.write_back map future_ts]; intro Hin; [destruct Hin|].
  destruct (ts2 =? ts)%Z eqn:E.
  - rewrite !future_qty_cons. cbn [future_qty_of]. ring.
  - apply Z.eqb_neq in E. destruct Hin as [Hin|Hin]; [congruence|].
    rewrite !future_qty_cons, (IH Hin). ring.
Qed.

Lemma future_ts_of_id (fa fa' : list Hmrc.FutureAcq) :
  map future_id fa = map future_id fa' -> map future_ts fa = map future_ts fa'.
Proof.
  revert fa'. induction fa as [|[[[a1 q1] c1] t1] r IH];
    intros [|[[[a2 q2] c2] t2] r'] H; cbn [map] in *; try discriminate;
    [reflexivity|].
  injection H as H1 H2 H3 H4. cbn [future_ts]. rewrite H3.
  f_equal. apply IH. exact H4.
Qed.

Lemma thirty_loop_conserves (thirty : list Hmrc.FutureAcq) :
  forall ql ct mu fa ql' ct' mu' fa',
  (forall a, In a thirty -> In (future_ts a) (map future_ts fa)) ->
  Hmrc.thirty_loop thirty ql ct mu fa = (ql', ct', mu', fa') ->
  map future_id fa' = map future_id fa /\
  future_qty fa' == future_qty fa - (ql - ql').
Proof.
  induction thirty as [|[[[adt aqty] cper] ts] rest IH];
    intros ql ct mu fa ql' ct' mu' fa' Hin H; cbn [Hmrc.thirty_loop] in H.
  - injection H as <- <- <- <-. split; [reflexivity | ring].
  - destruct (Qle_bool ql eps).
    + injection H as <- <- <- <-. split; [reflexivity | ring].
    + assert (Hts : In ts (map future_ts fa))
        by (apply (Hin (adt, aqty, cper, ts)); left; reflexivity).
      apply IH in H.
      * destruct H as [Hid Hq].
        rewrite Hid, write_back_id. split; [reflexivity|].
        rewrite Hq, (write_back_qty fa ts _ Hts). ring.
      * intros a Ha.
        rewrite (future_ts_of_id _ fa (write_back_id fa ts _)).
        apply Hin. right. exact Ha.
Qed.

(** X11. The 30-day step changes nothing of [future_acqs] but
    quantities, and lowers their total by exactly what it takes for the
    disposal: the part of the disposal left by the same-day step minus
    the part left for the pool. *)
Theorem thirty_day_step_conserves (s : Hmrc.State) (dt : Z) (q : Q) :
  map future_id (Hmrc.o_future_acqs (Hmrc.matching s dt q))
    = map future_id (Hmrc.future_acqs s) /\
  future_qty (Hmrc.o_future_acqs (Hmrc.matching s dt q))
    == future_qty (Hmrc.future_acqs s)
       - (same_day_left s dt q - Hmrc.o_qty_left (Hmrc.matching s dt q)).
Proof.
  unfold same_day_left, same_day_used, same_day_bucket, Hmrc.matching.
  destruct (Hmrc.consume_from_list _ q) as [[sd_cost sd_used] sd_list].
  cbn [fst snd]. fold (hmrc_taken sd_used).
  destruct (Hmrc.thirty_day_match _ _ _ _ _) as [[[ql ct] mu] fa] eqn:E.
  destruct (Hmrc.pool_match ql _ _ _) as [[[pc pu] pq] pcg].
  cbn [Hmrc.o_future_acqs Hmrc.o_qty_left].
  unfold Hmrc.thirty_day_match in E.
  destruct (Qlt_bool eps (q - hmrc_taken sd_used)).
  - apply thirty_loop_conserves in E; [exact E|].
    intros a Ha. apply In_thirty_of in Ha. destruct Ha as [Ha _].
    apply in_map. exact Ha.
  - injection E as <- _ _ <-. split; [reflexivity | ring].
Qed.

(** ** The price oracle keeps what it has served *)

(** X12. A lookup that returns a price leaves the oracle such that every
    later lookup of the same day returns the same price, whatever the
    endpoint would answer then, and leaves the oracle as it is; prices
    held for other days are neither lost nor changed. *)
Theorem oracle_memoizes (http : Z -> HttpAnswer) (o o' : PriceOracle)
    (date : Z) (p : Q) :
  xtz_price_on_date http o date = Some (p, o') ->
  cache o' !! date = Some p /\
  (forall http', xtz_price_on_date http' o' date = Some (p, o')) /\
  (forall d, d <> date -> cache o' !! d = cache o !! d) /\
  (forall d p', cache o !! d = Some p' -> cache o' !! d = Some p') /\
  vs o' = vs o.
Proof.
  unfold xtz_price_on_date. intro H.
  destruct (cache o !! date) as [p0|] eqn:Hc.
  - injection H as <- <-. conjs; auto.
    intro http'. rewrite Hc. reflexivity.
  - destruct (http date) as [|field]; [discriminate|].
    injection H as <- <-. cbn [cache vs]. conjs.
    + apply lookup_insert_eq.
    + intro http'. rewrite lookup_insert_eq. reflexivity.
    + intros d Hd. apply lookup_insert_ne. congruence.
    + intros d p' Hd. rewrite lookup_insert_ne; [exact Hd|]. congruence.
    + reflexivity.
Qed.

(** The theorem at a first lookup answered with 0.7 and a second lookup
    against an endpoint that has no price. *)
Lemma oracle_memoizes_witness :
  exists o',
    xtz_price_on_date priced_http fresh_oracle 20089 = Some (7 # 10, o') /\
    xtz_price_on_date no_price_http o' 20089 = Some (7 # 10, o').
Proof.
  eexists. split; [reflexivity|].
  exact (proj1 (proj2 (oracle_memoizes priced_http fresh_oracle _ 20089 (7 # 10)
                         eq_refl)) no_price_http).
Defined.

(** ** A pool that covers the residual *)

(** X13. When the pool holds more than [eps] and at least the residual of
    a disposal, the debit does not leave the quantity of the pool
    negative, and when the pool holds more than the residual, the
    average cost [pool_cost_gbp / pool_qty] is, before rounding, the
    same after the debit as before: the debit takes quantity and cost
    in the same proportion.  Rounding can leave the cost of a pool that
    is debited in full below zero: in binary64, a pool of 1 tez bought
    at 0.1 and 2 tez bought at 0.9 that a disposal of 3 tez empties is
    left with a cost of [-2^-52]. *)
Theorem covered_pool_debit_keeps_average :
  (forall (gbp : Z -> Q) (s : Hmrc.State) (e : Event),
     direction e = DirOut ->
     eps < Hmrc.o_qty_left (Hmrc.matching s (timestamp e) (quantity e)) ->
     Hmrc.o_qty_left (Hmrc.matching s (timestamp e) (quantity e))
       <= Hmrc.pool_qty s ->
     0 <= Hmrc.pool_qty (Hmrc.step gbp s e) /\
     (Hmrc.o_qty_left (Hmrc.matching s (timestamp e) (quantity e))
        < Hmrc.pool_qty s ->
      Hmrc.pool_cost_gbp (Hmrc.step gbp s e)
      / Hmrc.pool_qty (Hmrc.step gbp s e)
      == Hmrc.pool_cost_gbp s / Hmrc.pool_qty s)) /\
  (let o := Hmrc64.matching B64.sum two_price_pool (noon 3) (B64.of_Z 3) in
   Hmrc64.pool_qty two_price_pool = B64.of_Z 3 /\
   Hmrc64.o_match_used o = [] /\
   map Hmrc64.take_qty (Hmrc64.o_pool_used o) = [B64.of_Z 3] /\
   Hmrc64.o_pool_qty o = B64.zero /\
   B64.to_Q (Hmrc64.o_pool_cost_gbp o) == - (1 # 4503599627370496)).
Proof.
  split; [|vm_compute; repeat split].
  intros gbp s e Hd Hr Hcov.
  rewrite (hmrc_step_dispose gbp s e Hd).
  cbn [Hmrc.pool_qty Hmrc.pool_cost_gbp].
  destruct (matching_spec s (timestamp e) (quantity e))
    as (_ & _ & _ & (ct & pc & Hp) & _).
  set (r := Hmrc.o_qty_left (Hmrc.matching s (timestamp e) (quantity e))) in *.
  assert (Hpq : eps < Hmrc.pool_qty s) by lra.
  rewrite (pool_match_debit _ _ _ _ Hr Hpq) in Hp.
  injection Hp as _ _ Hq Hcost. rewrite <- Hq, <- Hcost.
  pose proof eps_pos as He.
  split; [lra|].
  intro Hlt. field. split; lra.
Qed.

(** The theorem at a disposal of 4 against a pool of 10 units that cost
    20. *)
Lemma covered_pool_debit_keeps_average_witness :
  0 <= Hmrc.pool_qty (Hmrc.step (flat_price 2) pooled_state
                        (xtz (noon 3) DirOut 4)) /\
  Hmrc.pool_cost_gbp (Hmrc.step (flat_price 2) pooled_state
                        (xtz (noon 3) DirOut 4))
  / Hmrc.pool_qty (Hmrc.step (flat_price 2) pooled_state
                     (xtz (noon 3) DirOut 4))
  == 20 / 10.
Proof.
  destruct (proj1 covered_pool_debit_keeps_average (flat_price 2) pooled_state
              (xtz (noon 3) DirOut 4) eq_refl) as (H1 & H3);
    try qeval.
  split; [exact H1 | apply H3; qeval].
Defined.


(** ** The ledger *)

Lemma irs_step_row (usd : Z -> Q) (s : Irs.State) (e : Event) :
  exists row,
    Irs.ledger (Irs.step usd s e) = (Irs.ledger s ++ [row])%list /\
    Irs.row_event row = e /\
    (Irs.irs_category row = "disposal_capital"%string
     <-> is_disposal e = true) /\
    (Irs.xtz_fmv_usd_daily row = None <-> is_xtz e = false).
Proof.
  unfold Irs.step, is_disposal.
  destruct (is_xtz e) eqn:Hx.
  - destruct (direction e); cbn [is_in is_out andb];
      destruct (Qlt_bool 0 (quantity e)); try destruct (Irs.dispose _ _ _);
      eexists; (split; [reflexivity|]); cbn; repeat split;
      intros; try discriminate; try reflexivity.
  - destruct (is_out (direction e));
      eexists; (split; [reflexivity|]); cbn; repeat split;
      intros; try discriminate; try reflexivity.
Qed.

(** X14. [classify_irs] returns one ledger row for each event of its
    input, in the order of the input, whatever the asset, the direction
    and the quantity of the event.  A row is in the category
    [disposal_capital] exactly when the FIFO engine writes a disposal
    record for its event, and carries no price exactly when its event is
    not a tez event. *)
Theorem ledger_has_one_row_per_event (usd : Z -> Q) (events : list Event) :
  map Irs.row_event (fst (Irs.classify_irs usd events)) = events /\
  Forall (fun row =>
            (Irs.irs_category row = "disposal_capital"%string
             <-> is_disposal (Irs.row_event row) = true) /\
            (Irs.xtz_fmv_usd_daily row = None
             <-> is_xtz (Irs.row_event row) = false))
         (fst (Irs.classify_irs usd events)).
Proof.
  cbn [fst Irs.classify_irs]. unfold Irs.run.
  split; [apply irs_fold_ledger|].
  assert (H : forall s (P := fun row =>
                (Irs.irs_category row = "disposal_capital"%string
                 <-> is_disposal (Irs.row_event row) = true) /\
                (Irs.xtz_fmv_usd_daily row = None
                 <-> is_xtz (Irs.row_event row) = false)),
              Forall P (Irs.ledger s) ->
              Forall P (Irs.ledger (fold_left (Irs.step usd) events s))).
  { induction events as [|e r IH]; intros s P Hs; cbn [fold_left]; [exact Hs|].
    apply IH. destruct (irs_step_row usd s e) as (row & -> & He & Hc & Hp).
    apply Forall_app. split; [exact Hs|].
    constructor; [|constructor]. unfold P. rewrite He. split; assumption. }
  apply H. constructor.
Qed.

(** ** The 30-day step and acquisitions with distinct timestamps *)

Lemma write_back_nonneg (fa : list Hmrc.FutureAcq) (adt : Z) (aqty cper : Q)
    (ts : Z) (take : Q) :
  List.NoDup (map future_ts fa) -> In (adt, aqty, cper, ts) fa -> take <= aqty ->
  Forall (fun a => 0 <= future_qty_of a) fa ->
  Forall (fun a => 0 <= future_qty_of a) (Hmrc.write_back fa ts take).
Proof.
  induction fa as [|[[[a2 q2] c2] t2] rest IH];
    cbn [map future_ts Hmrc.write_back]; intros Hnd Hin Htake Hpos;
    [constructor|].
  inversion Hnd as [|? ? Hnot Hnd']; subst.
  inversion Hpos as [|? ? Hh Hr]; subst. cbn [future_qty_of] in Hh.
  destruct (t2 =? ts)%Z eqn:E.
  - apply Z.eqb_eq in E. subst t2.
    destruct Hin as [Hin|Hin].
    + injection Hin as -> -> ->. constructor; [cbn; lra | exact Hr].
    + exfalso. apply Hnot.
      apply (in_map future_ts) in Hin. exact Hin.
  - apply Z.eqb_neq in E. destruct Hin as [Hin|Hin]; [congruence|].
    constructor; [exact Hh | apply IH; assumption].
Qed.

Lemma write_back_keeps (fa : list Hmrc.FutureAcq) (ts : Z) (take : Q)
    (r : Hmrc.FutureAcq) :
  In r fa -> future_ts r <> ts -> In r (Hmrc.write_back fa ts take).
Proof.
  induction fa as [|[[[a2 q2] c2] t2] rest IH];
    cbn [Hmrc.write_back]; intros Hin Hne; [destruct Hin|].
  destruct (t2 =? ts)%Z eqn:E.
  - apply Z.eqb_eq in E. subst t2. destruct Hin as [<-|Hin].
    + cbn in Hne. congruence.
    + right. exact Hin.
  - destruct Hin as [<-|Hin]; [left; reflexivity | right; apply IH; assumption].
Qed.

Lemma thirty_loop_nonneg (thirty : list Hmrc.FutureAcq) :
  forall ql ct mu fa,
  List.NoDup (map future_ts thirty) -> (forall r, In r thirty -> In r fa) ->
  List.NoDup (map future_ts fa) ->
  Forall (fun a => 0 <= future_qty_of a) fa ->
  Forall (fun a => 0 <= future_qty_of a)
         (snd (Hmrc.thirty_loop thirty ql ct mu fa)).
Proof.
  induction thirty as [|[[[adt aqty] cper] ts] rest IH];
    intros ql ct mu fa Hnd Hin Hnf Hpos; cbn [Hmrc.thirty_loop]; [exact Hpos|].
  destruct (Qle_bool ql eps); [exact Hpos|].
  cbn [map future_ts] in Hnd. inversion Hnd as [|? ? Hnot Hnd']; subst.
  apply IH.
  - exact Hnd'.
  - intros r Hr. apply write_back_keeps.
    + apply Hin. right. exact Hr.
    + intro E. apply Hnot. rewrite <- E. apply in_map. exact Hr.
  - rewrite (future_ts_of_id _ fa (write_back_id fa ts _)). exact Hnf.
  - apply (write_back_nonneg fa adt aqty cper ts); try assumption.
    + apply Hin. left. reflexivity.
    + destruct (Qmin_cases ql aqty) as [[L E]|[L E]]; lra.
Qed.

Lemma NoDup_map_filter {A B : Type} (f : A -> B) (p : A -> bool) (l : list A) :
  List.NoDup (map f l) -> List.NoDup (map f (List.filter p l)).
Proof.
  induction l as [|x r IH]; cbn [map List.filter]; intro H; [constructor|].
  inversion H as [|? ? Hnot Hnd]; subst.
  destruct (p x); cbn [map]; [|apply IH; exact Hnd].
  constructor; [|apply IH; exact Hnd].
  intro Hin. apply Hnot. apply in_map_iff in Hin.
  destruct Hin as (y & Hy & Hin). apply filter_In in Hin.
  rewrite <- Hy. apply in_map. apply Hin.
Qed.

(** X16. When the acquisitions held in [future_acqs] have distinct
    timestamps and none holds a negative quantity, the 30-day step takes
    from no acquisition more than it holds: no entry of [future_acqs] is
    negative afterwards. *)
Theorem thirty_day_step_never_overdraws (s : Hmrc.State) (dt : Z) (q : Q) :
  List.NoDup (map future_ts (Hmrc.future_acqs s)) ->
  Forall (fun a => 0 <= future_qty_of a) (Hmrc.future_acqs s) ->
  Forall (fun a => 0 <= future_qty_of a)
         (Hmrc.o_future_acqs (Hmrc.matching s dt q)).
Proof.
  intros Hnd Hpos. unfold Hmrc.matching.
  destruct (Hmrc.consume_from_list _ q) as [[sd_cost sd_used] sd_list].
  destruct (Hmrc.thirty_day_match _ _ _ _ _) as [[[ql ct] mu] fa] eqn:E.
  destruct (Hmrc.pool_match ql _ _ _) as [[[pc pu] pq] pcg].
  cbn [Hmrc.o_future_acqs].
  unfold Hmrc.thirty_day_match in E. destruct (Qlt_bool eps _).
  - change fa with (snd (ql, ct, mu, fa)). rewrite <- E.
    apply thirty_loop_nonneg; try assumption.
    + unfold Hmrc.thirty_of.
      eapply Permutation_NoDup;
        [apply Permutation_map; symmetry; apply sort_by_perm|].
      apply NoDup_map_filter. exact Hnd.
    + intros r Hr. apply In_thirty_of in Hr. apply Hr.
  - injection E as _ _ _ <-. exact Hpos.
Qed.

(** The theorem at a disposal of 4 three days before an acquisition of
    10. *)
Lemma thirty_day_step_never_overdraws_witness :
  Forall (fun a => 0 <= future_qty_of a)
         (Hmrc.o_future_acqs (Hmrc.matching same_day_state (noon 1) 4)).
Proof.
  apply thirty_day_step_never_overdraws.
  - repeat constructor. intros [].
  - repeat constructor. qeval.
Defined.

(** ** Token transfers to the scanned address *)

(** X17. A token transfer with a timestamp whose recipient is the scanned
    address is an incoming event whoever sends it, the address itself
    included, with the sender as counterparty; its ledger row is in the
    category [token_acquisition_or_income_review], and it is no event
    that the engines price. *)
Theorem token_transfer_to_self_is_incoming (address : string)
    (tr : TokenTransferOp) (ts : Z) :
  tr_timestamp tr = Some ts -> tr_to tr = address ->
  exists e,
    token_event (lower address) tr = Some e /\
    direction e = DirIn /\ counterparty e = tr_from tr /\
    timestamp e = ts /\ pos_xtz e = false /\
    forall usd s,
      exists row,
        Irs.ledger (Irs.step usd s e) = (Irs.ledger s ++ [row])%list /\
        Irs.irs_category row = "token_acquisition_or_income_review"%string /\
        Irs.disposals (Irs.step usd s e) = Irs.disposals s /\
        Irs.xtz_lots (Irs.step usd s e) = Irs.xtz_lots s.
Proof.
  intros Hts Hto.
  destruct (token_event (lower address) tr) as [e|] eqn:He;
    [|unfold token_event in He; rewrite Hts in He; discriminate].
  pose proof (token_event_not_xtz _ _ _ He) as Hx.
  assert (Hd : direction e = DirIn /\ counterparty e = tr_from tr /\
               timestamp e = ts).
  { unfold token_event in He. rewrite Hts, Hto, String.eqb_refl in He.
    injection He as <-. cbn. conjs; reflexivity. }
  destruct Hd as (Hdir & Hcp & Het).
  exists e. conjs; try assumption; try reflexivity.
  - unfold pos_xtz. rewrite Hx. reflexivity.
  - intros usd s. unfold Irs.step. rewrite Hx, Hdir. cbn [is_out].
    eexists. conjs; reflexivity.
Qed.

(** The theorem at a token of symbol XTZ sent by the scanned address to
    itself. *)
Lemma token_transfer_to_self_is_incoming_witness :
  exists e,
    token_event (lower self_address) token_self_transfer = Some e /\
    direction e = DirIn /\ pos_xtz e = false.
Proof.
  destruct (token_transfer_to_self_is_incoming self_address
              token_self_transfer (noon 7) eq_refl eq_refl)
    as (e & He & Hd & _ & _ & Hp & _).
  exists e. split; [exact He | split; [exact Hd | exact Hp]].
Defined.

(** ** The pool over a run *)

Lemma py_sum_perm (l l' : list Q) : Permutation l l' -> py_sum l == py_sum l'.
Proof.
  induction 1 as [|x l l' _ IH|x y l|l l' l'' _ IH1 _ IH2].
  - reflexivity.
  - rewrite !py_sum_cons, IH. reflexivity.
  - rewrite !py_sum_cons. ring.
  - rewrite IH1. exact IH2.
Qed.

Lemma pool_part_app (u v : list Hmrc.Match) :
  pool_part (u ++ v) = (pool_part u ++ pool_part v)%list.
Proof. unfold pool_part. apply List.filter_app. Qed.

Lemma pool_part_sources (s : Hmrc.State) (dt : Z) (used : list Hmrc.Match) :
  Forall (entry_source s dt) used -> pool_part used = [].
Proof.
  induction 1 as [|x r Hx _ IH]; [reflexivity|].
  unfold pool_part in *. cbn [List.filter]. rewrite IH.
  destruct Hx as [(rec & _ & ->)|(a & b & c & d & _ & _ & ->)]; reflexivity.
Qed.

Lemma hmrc_step_pool (gbp : Z -> Q) (s : Hmrc.State) (e : Event) :
  direction e = DirOut ->
  Hmrc.pool_qty (Hmrc.step gbp s e)
  == Hmrc.pool_qty s
     - hmrc_taken (pool_part (Hmrc.matching_breakdown_json (hmrc_record gbp s e)))
  /\
  Hmrc.pool_cost_gbp (Hmrc.step gbp s e)
  == Hmrc.pool_cost_gbp s
     - hmrc_entries_cost
         (pool_part (Hmrc.matching_breakdown_json (hmrc_record gbp s e))).
Proof.
  intro Hd. rewrite (hmrc_step_dispose gbp s e Hd).
  cbn [Hmrc.pool_qty Hmrc.pool_cost_gbp hmrc_record Hmrc.row
       Hmrc.matching_breakdown_json].
  destruct (matching_spec s (timestamp e) (quantity e))
    as (_ & _ & _ & (ct & pc & Hp) & Hsrc).
  rewrite pool_part_app, (pool_part_sources _ _ _ Hsrc). cbn [app].
  set (r := Hmrc.o_qty_left (Hmrc.matching s (timestamp e) (quantity e))) in *.
  unfold Hmrc.pool_match in Hp.
  destruct (Qlt_bool eps r); [destruct (Qle_bool (Hmrc.pool_qty s) eps)|];
    injection Hp as _ <- <- <-; cbn [pool_part List.filter];
    rewrite ?hmrc_taken_nil, ?hmrc_entries_cost_nil, ?hmrc_taken_one,
      ?hmrc_entries_cost_one;
    cbn [Hmrc.take_qty hmrc_entry_cost]; split; ring.
Qed.

Lemma pool_debits_snoc (ds : list Hmrc.Disposal) (d : Hmrc.Disposal) :
  pool_debits (ds ++ [d])
  == pool_debits ds + hmrc_taken (pool_part (Hmrc.matching_breakdown_json d)).
Proof. unfold pool_debits. rewrite map_app. cbn [map]. apply py_sum_snoc. Qed.

Lemma pool_debit_costs_snoc (ds : list Hmrc.Disposal) (d : Hmrc.Disposal) :
  pool_debit_costs (ds ++ [d])
  == pool_debit_costs ds
     + hmrc_entries_cost (pool_part (Hmrc.matching_breakdown_json d)).
Proof.
  unfold pool_debit_costs. rewrite map_app. cbn [map]. apply py_sum_snoc.
Qed.

Lemma acquired_cost_cons (gbp : Z -> Q) (e : Event) (events : list Event) :
  acquired_cost gbp (e :: events)
  == (if is_acquisition e then quantity e * gbp (day_of (timestamp e)) else 0)
     + acquired_cost gbp events.
Proof.
  unfold acquired_cost. cbn [List.filter]. destruct (is_acquisition e).
  - cbn [map]. apply py_sum_cons.
  - ring.
Qed.

Lemma hmrc_fold_pool (gbp : Z -> Q) (l : list Event) :
  Forall (fun e => pos_xtz e = true) l ->
  forall s,
  Hmrc.pool_qty (fold_left (Hmrc.step gbp) l s)
  + pool_debits (Hmrc.disposals (fold_left (Hmrc.step gbp) l s))
  == Hmrc.pool_qty s + pool_debits (Hmrc.disposals s) + acquired l /\
  Hmrc.pool_cost_gbp (fold_left (Hmrc.step gbp) l s)
  + pool_debit_costs (Hmrc.disposals (fold_left (Hmrc.step gbp) l s))
  == Hmrc.pool_cost_gbp s + pool_debit_costs (Hmrc.disposals s)
     + acquired_cost gbp l.
Proof.
  induction 1 as [|e r He _ IH]; intro s; cbn [fold_left].
  - change (acquired []) with 0. change (acquired_cost gbp []) with 0.
    split; ring.
  - destruct (IH (Hmrc.step gbp s e)) as [I1 I2].
    rewrite I1, I2, acquired_cons, acquired_cost_cons.
    unfold pos_xtz in He. apply andb_true_iff in He. destruct He as [Hx Hq].
    unfold is_acquisition. rewrite Hx, Hq, andb_true_r. cbn [andb].
    destruct (direction e) eqn:Hd; cbn [is_in].
    + unfold Hmrc.step at 1 2 3 4. rewrite Hd. cbn [is_in].
      cbn [Hmrc.pool_qty Hmrc.pool_cost_gbp Hmrc.disposals].
      unfold Hmrc.xtz_fmv, iso_to_dt. split; ring.
    + destruct (hmrc_step_pool gbp s e Hd) as [P1 P2].
      rewrite P1, P2. rewrite (hmrc_step_dispose gbp s e Hd).
      cbn [Hmrc.disposals].
      rewrite pool_debits_snoc, pool_debit_costs_snoc. split; ring.
Qed.

(** X18. On every run of the HMRC engine the pool holds, in the end, all
    that was acquired less what the pool entries of the records took,
    in quantity and in cost: what the same-day and 30-day rules match is
    never taken out of the pool. *)
Theorem pool_is_acquired_less_pool_debits (gbp : Z -> Q)
    (events : list Event) :
  Hmrc.pool_qty (Hmrc.run gbp events)
  == acquired events - pool_debits (Hmrc.hmrc_pooling_disposals gbp events) /\
  Hmrc.pool_cost_gbp (Hmrc.run gbp events)
  == acquired_cost gbp events
     - pool_debit_costs (Hmrc.hmrc_pooling_disposals gbp events).
Proof.
  unfold Hmrc.hmrc_pooling_disposals, Hmrc.run.
  assert (Hpos : Forall (fun e => pos_xtz e = true) (Hmrc.xtz_events_of events)).
  { apply List.Forall_forall. intros e He. unfold Hmrc.xtz_events_of in He.
    apply In_sort_by in He. apply filter_In in He. apply He. }
  destruct (hmrc_fold_pool gbp _ Hpos
              (fold_left (Hmrc.record_acq gbp) (Hmrc.xtz_events_of events)
                 Hmrc.start)) as [H1 H2].
  destruct (first_pass_from gbp (Hmrc.xtz_events_of events) Hmrc.start)
    as (_ & _ & Hq & Hc).
  rewrite Hq, hmrc_first_pass_disposals in H1.
  rewrite Hc, hmrc_first_pass_disposals in H2.
  cbn [Hmrc.start Hmrc.pool_qty Hmrc.pool_cost_gbp Hmrc.disposals] in H1, H2.
  change (pool_debits []) with 0 in H1.
  change (pool_debit_costs []) with 0 in H2.
  assert (Hperm : Permutation
                    (List.filter is_acquisition (Hmrc.xtz_events_of events))
                    (List.filter is_acquisition events)).
  { unfold Hmrc.xtz_events_of. rewrite filter_sort_by, filter_twice.
    rewrite sort_by_perm.
    rewrite (filter_ext _ is_acquisition); [reflexivity|].
    intro e. unfold is_acquisition.
    destruct (is_xtz e), (is_in (direction e)), (Qlt_bool 0 (quantity e));
      reflexivity. }
  assert (Ha : acquired (Hmrc.xtz_events_of events) == acquired events)
    by (unfold acquired; apply py_sum_perm, Permutation_map, Hperm).
  assert (Hac : acquired_cost gbp (Hmrc.xtz_events_of events)
                == acquired_cost gbp events)
    by (unfold acquired_cost; apply py_sum_perm, Permutation_map, Hperm).
  rewrite Ha in H1. rewrite Hac in H2. split; lra.
Qed.
